(** * Phase-transition metrics of the virt-controller

    A shallow embedding of
    [pkg/monitoring/metrics/virt-controller/metrics.go]:
    the phase-transition latency computation [getTransitionTimeSeconds],
    the histogram bucket ladder [PhaseTransitionTimeBuckets], and the
    registration wiring [SetupMetrics] / [UpdateVMIMigrationInformer]
    over the package-level variables.

    Go's [float64] is IEEE 754 binary64 with round-to-nearest-even; it is
    modelled by the Standard Library's executable specification
    [SpecFloat] at precision 53 and maximal exponent 1024.  Go's [int64]
    is a [Z] with its range written out. *)

From Stdlib Require Import ZArith List Bool Lia String QArith Qpower Qfield.
From Stdlib Require Import Floats.SpecFloat.
From stdpp Require Import base gmap.

Import ListNotations.
Local Open Scope Z_scope.

(** ** float64 *)

Module F64.

Definition prec : Z := 53.
Definition emax : Z := 1024.

Definition float64 : Type := spec_float.

(** The conversion [float64(n)] of an integer. *)
Definition of_Z (n : Z) : float64 := binary_normalize prec emax n 0 false.

(** A binary literal [m * 2^e], rounded to float64. *)
Definition of_bin (m e : Z) : float64 := binary_normalize prec emax m e false.

Definition zero : float64 := S754_zero false.

Definition add (x y : float64) : float64 := SFadd prec emax x y.
Definition mul (x y : float64) : float64 := SFmul prec emax x y.
Definition div (x y : float64) : float64 := SFdiv prec emax x y.
Definition ltb (x y : float64) : bool := SFltb x y.
Definition leb (x y : float64) : bool := SFleb x y.

(** The rational number a float64 denotes; [None] for infinities and
    NaN.  The result is in lowest terms. *)
Definition to_Q (x : float64) : option Q :=
  match x with
  | S754_zero _ => Some (0 # 1)
  | S754_finite s m e =>
      Some (Qred (Qmult (cond_Zopp s (Zpos m) # 1) (Qpower (2 # 1) e)))
  | S754_infinity _ | S754_nan => None
  end.

End F64.

Abbreviation float64 := F64.float64.

(** A float that is a finite nonzero number of sign [s], with exponent at
    least [emin], or the infinity of sign [s]. *)
Definition SF_signed (prec emax : Z) (s : bool) (x : spec_float) : Prop :=
  (exists m e, x = S754_finite s m e /\ SpecFloat.emin prec emax <= e)
  \/ x = S754_infinity s.

(** ** Package [time] of the Go standard library

    The source file only calls [Time.Sub] and [Duration.Seconds], and names
    the constants [Second], [Minute] and [Hour].  They are modelled as the
    library defines and documents them. *)

Module time.

(** [type Duration int64]: a count of nanoseconds. *)
Definition Duration : Type := Z.

Definition minDuration : Duration := - 2 ^ 63.
Definition maxDuration : Duration := 2 ^ 63 - 1.

Definition Nanosecond : Duration := 1.
Definition Microsecond : Duration := 1000 * Nanosecond.
Definition Millisecond : Duration := 1000 * Microsecond.
Definition Second : Duration := 1000 * Millisecond.
Definition Minute : Duration := 60 * Second.
Definition Hour : Duration := 60 * Minute.

(** [func (d Duration) Seconds() float64]:
<<
    sec := d / Second
    nsec := d % Second
    return float64(sec) + float64(nsec)/1e9
>>
    Go's integer [/] and [%] truncate toward zero. *)
Definition Seconds (d : Duration) : float64 :=
  let sec := Z.quot d Second in
  let nsec := Z.rem d Second in
  F64.add (F64.of_Z sec) (F64.div (F64.of_Z nsec) (F64.of_Z 1000000000)).

(** A [time.Time]: the wall clock reading, as seconds since January 1 of
    year 1 (an int64) and nanoseconds within the second (0 to
    999999999), and the optional monotonic clock reading in nanoseconds
    (an int64) that [time.Now] attaches. *)
Record Time : Type := mkTime {
  wall_sec : Z;
  wall_nsec : Z;
  mono : option Z
}.

Definition int64_range (z : Z) : Prop := - 2 ^ 63 <= z <= 2 ^ 63 - 1.

Definition valid (t : Time) : Prop :=
  int64_range (wall_sec t)
  /\ 0 <= wall_nsec t <= 999999999
  /\ match mono t with Some m => int64_range m | None => True end.

(** The exact number of nanoseconds from [u] to [t], on the clock Go
    compares the two on: the monotonic clock when both carry a reading,
    the wall clock otherwise. *)
Definition since (t u : Time) : Z :=
  match mono t, mono u with
  | Some te, Some ue => te - ue
  | _, _ => (wall_sec t - wall_sec u) * Second + (wall_nsec t - wall_nsec u)
  end.

Definition saturate (d : Z) : Duration :=
  if d <? minDuration then minDuration
  else if maxDuration <? d then maxDuration
  else d.

(** [func (t Time) Sub(u Time) Duration]: "Sub returns the duration t-u.
    If the result exceeds the maximum (or minimum) value that can be
    stored in a Duration, the maximum (or minimum) duration will be
    returned." *)
Definition Sub (t u : Time) : Duration := saturate (since t u).

(** [func (t Time) Before(u Time) bool] *)
Definition Before (t u : Time) : bool :=
  match mono t, mono u with
  | Some te, Some ue => te <? ue
  | _, _ => (wall_sec t <? wall_sec u)
            || ((wall_sec t =? wall_sec u) && (wall_nsec t <? wall_nsec u))
  end.

(** [func (t Time) Equal(u Time) bool] *)
Definition Equal (t u : Time) : bool :=
  match mono t, mono u with
  | Some te, Some ue => te =? ue
  | _, _ => (wall_sec t =? wall_sec u) && (wall_nsec t =? wall_nsec u)
  end.

End time.

(** ** Package [metav1]: [Time] wraps [time.Time] as an embedded field *)

Module metav1.

Record Time : Type := mkTime { Time_ : time.Time }.

End metav1.

(** ** Errors built by [fmt.Errorf]

    The error value keeps the format string and the operands it was built
    from, in argument order. *)
Inductive error : Type :=
  | fmt_Errorf (format : string) (args : list (option metav1.Time)).

(** ** [getTransitionTimeSeconds] *)

Definition is_nil {A : Type} (p : option A) : bool :=
  match p with None => true | Some _ => false end.

Definition getTransitionTimeSeconds (oldTime newTime : option metav1.Time)
  : float64 * option error :=
  match newTime, oldTime with
  | None, _ | _, None =>
      (* no phase transition timestamp found *)
      (F64.zero,
       Some (fmt_Errorf
               "missing phase transition timestamp, newTime: %v, oldTime: %v"
               [newTime; oldTime]))
  | Some newT, Some oldT =>
      let diffSeconds :=
        time.Seconds (time.Sub (metav1.Time_ newT) (metav1.Time_ oldT)) in
      (* when transitions are very fast, we can encounter time skew.
         Make 0 the floor *)
      let diffSeconds :=
        if F64.ltb diffSeconds (F64.of_Z 0) then F64.zero else diffSeconds in
      (diffSeconds, None)
  end.

(** "Returns exactly the elapsed seconds": the result is the seconds of
    the exact nanosecond difference, and no error. *)
Definition returns_elapsed_seconds (oldTime newTime : metav1.Time) : Prop :=
  getTransitionTimeSeconds (Some oldTime) (Some newTime)
  = (time.Seconds (time.since (metav1.Time_ newTime) (metav1.Time_ oldTime)),
     None).

(** ** [PhaseTransitionTimeBuckets]

    The function evaluates a composite literal of eighteen products and
    returns a slice over a newly allocated backing array.  Backing arrays
    live in a heap, so that what callers do to a slice they were handed is
    visible in the model. *)

Definition loc : Type := positive.

Record slice : Type := mkSlice { array : loc; len : nat; cap : nat }.

Definition elements (h : gmap loc (list float64)) (s : slice)
  : option (list float64) :=
  match h !! array s with
  | Some a => Some (firstn (len s) a)
  | None => None
  end.

(** [s[i] = v]; [None] stands for the index-out-of-range panic. *)
Definition slice_store (h : gmap loc (list float64)) (s : slice) (i : nat)
  (v : float64) : option (gmap loc (list float64)) :=
  match h !! array s with
  | Some a =>
      if (i <? len s)%nat then Some (<[array s := <[i := v]> a]> h) else None
  | None => None
  end.

Definition PhaseTransitionTimeBuckets_literal : list float64 :=
  [ F64.mul (F64.of_bin 1 (-1)) (time.Seconds time.Second);
    F64.mul (F64.of_Z 1) (time.Seconds time.Second);
    F64.mul (F64.of_Z 2) (time.Seconds time.Second);
    F64.mul (F64.of_Z 5) (time.Seconds time.Second);
    F64.mul (F64.of_Z 10) (time.Seconds time.Second);
    F64.mul (F64.of_Z 20) (time.Seconds time.Second);
    F64.mul (F64.of_Z 30) (time.Seconds time.Second);
    F64.mul (F64.of_Z 40) (time.Seconds time.Second);
    F64.mul (F64.of_Z 50) (time.Seconds time.Second);
    F64.mul (F64.of_Z 60) (time.Seconds time.Second);
    F64.mul (F64.of_Z 90) (time.Seconds time.Second);
    F64.mul (F64.of_Z 2) (time.Seconds time.Minute);
    F64.mul (F64.of_Z 3) (time.Seconds time.Minute);
    F64.mul (F64.of_Z 5) (time.Seconds time.Minute);
    F64.mul (F64.of_Z 10) (time.Seconds time.Minute);
    F64.mul (F64.of_Z 20) (time.Seconds time.Minute);
    F64.mul (F64.of_Z 30) (time.Seconds time.Minute);
    F64.mul (F64.of_Z 1) (time.Seconds time.Hour) ].

Definition PhaseTransitionTimeBuckets (h : gmap loc (list float64))
  : slice * gmap loc (list float64) :=
  let a := fresh (dom h) in
  let elems := PhaseTransitionTimeBuckets_literal in
  (mkSlice a (length elems) (length elems), <[a := elems]> h).

Fixpoint strictly_increasing (l : list float64) : bool :=
  match l with
  | x :: (y :: _) as tl => F64.ltb x y && strictly_increasing tl
  | _ => true
  end.

(** The ladder as the specification lists it, in seconds: the float64
    values of the literals 0.5, 1, 2, ..., 3600. *)
Definition bucket_ladder : list float64 :=
  F64.of_bin 1 (-1)
  :: map F64.of_Z
       [1; 2; 5; 10; 20; 30; 40; 50; 60; 90; 120; 180; 300; 600; 1200; 1800;
        3600].

(** The same numbers as rationals. *)
Definition bucket_ladder_Q : list Q :=
  (1 # 2)%Q
  :: map inject_Z
       [1; 2; 5; 10; 20; 30; 40; 50; 60; 90; 120; 180; 300; 600; 1200; 1800;
        3600].

(** ** The registration wiring

    Everything the wiring takes from elsewhere is collected in one
    interface: the types of the object caches, of the cluster configuration
    and of the client; the constructors of the spec finders and of the VM
    applier; the metric groups and collectors that other files of the
    package declare; and the metrics registry behind [client.SetupMetrics],
    [workqueue.SetupMetrics] and package [operatormetrics]. *)

Inductive Call (Metric Collector : Type) : Type :=
  | client_SetupMetrics
  | workqueue_SetupMetrics
  | operatormetrics_RegisterMetrics (allMetrics : list (list Metric))
  | operatormetrics_RegisterCollector (collectors : list Collector).

Arguments client_SetupMetrics {Metric Collector}.
Arguments workqueue_SetupMetrics {Metric Collector}.
Arguments operatormetrics_RegisterMetrics {Metric Collector} allMetrics.
Arguments operatormetrics_RegisterCollector {Metric Collector} collectors.

Class Externals : Type := {
  SharedIndexInformer : Type;
  Store : Type;
  ClusterConfig : Type;
  KubevirtClient : Type;
  InstancetypeFinder : Type;
  PreferenceFinder : Type;
  vmApplyHandler : Type;
  find_NewSpecFinder :
    Store -> Store -> Store -> KubevirtClient -> InstancetypeFinder;
  preferenceFind_NewSpecFinder :
    Store -> Store -> Store -> KubevirtClient -> PreferenceFinder;
  apply_NewVMApplier : InstancetypeFinder -> PreferenceFinder -> vmApplyHandler;
  Metric : Type;
  Collector : Type;
  componentMetrics : list Metric;
  migrationMetrics : list Metric;
  perfscaleMetrics : list Metric;
  vmiMetrics : list Metric;
  vmSnapshotMetrics : list Metric;
  leaderMetrics : list Metric;
  migrationStatsCollector : Collector;
  vmiStatsCollector : Collector;
  vmStatsCollector : Collector;
  (** error values the registry hands back *)
  RegError : Type;
  (** the state of the registry, and what each call does to it *)
  Registry : Type;
  perform : Call Metric Collector -> Registry -> Registry * option RegError;
  operatormetrics_ListMetrics : Registry -> list Metric
}.

Section Wiring.
Context `{Ext : Externals}.

Record Informers : Type := mkInformers {
  Vm : SharedIndexInformer;
  Vmi : SharedIndexInformer;
  PersistentVolumeClaim : SharedIndexInformer;
  VmiMigration : SharedIndexInformer;
  KvPod : SharedIndexInformer
}.

Record Stores : Type := mkStores {
  Instancetype : Store;
  ClusterInstancetype : Store;
  Preference : Store;
  ClusterPreference : Store;
  ControllerRevision : Store
}.

(** [var metrics = [][]operatormetrics.Metric{...}]; never assigned. *)
Definition metrics : list (list Metric) :=
  [ componentMetrics; migrationMetrics; perfscaleMetrics; vmiMetrics;
    vmSnapshotMetrics ].

(** The package-level variables that are assigned at run time. *)
Record PkgVars : Type := mkPkgVars {
  vmInformer : SharedIndexInformer;
  vmiInformer : SharedIndexInformer;
  persistentVolumeClaimInformer : SharedIndexInformer;
  vmiMigrationInformer : SharedIndexInformer;
  kvPodInformer : SharedIndexInformer;
  clusterConfig : ClusterConfig;
  vmApplier : vmApplyHandler;
  instancetypeStore : Store;
  clusterInstancetypeStore : Store;
  preferenceStore : Store;
  clusterPreferenceStore : Store;
  controllerRevision : Store
}.

Definition set_vmInformer (x : SharedIndexInformer) (v : PkgVars) : PkgVars :=
  mkPkgVars x (vmiInformer v) (persistentVolumeClaimInformer v)
    (vmiMigrationInformer v) (kvPodInformer v) (clusterConfig v) (vmApplier v)
    (instancetypeStore v) (clusterInstancetypeStore v) (preferenceStore v)
    (clusterPreferenceStore v) (controllerRevision v).

Definition set_vmiInformer (x : SharedIndexInformer) (v : PkgVars) : PkgVars :=
  mkPkgVars (vmInformer v) x (persistentVolumeClaimInformer v)
    (vmiMigrationInformer v) (kvPodInformer v) (clusterConfig v) (vmApplier v)
    (instancetypeStore v) (clusterInstancetypeStore v) (preferenceStore v)
    (clusterPreferenceStore v) (controllerRevision v).

Definition set_persistentVolumeClaimInformer (x : SharedIndexInformer)
  (v : PkgVars) : PkgVars :=
  mkPkgVars (vmInformer v) (vmiInformer v) x
    (vmiMigrationInformer v) (kvPodInformer v) (clusterConfig v) (vmApplier v)
    (instancetypeStore v) (clusterInstancetypeStore v) (preferenceStore v)
    (clusterPreferenceStore v) (controllerRevision v).

Definition set_vmiMigrationInformer (x : SharedIndexInformer) (v : PkgVars)
  : PkgVars :=
  mkPkgVars (vmInformer v) (vmiInformer v) (persistentVolumeClaimInformer v)
    x (kvPodInformer v) (clusterConfig v) (vmApplier v)
    (instancetypeStore v) (clusterInstancetypeStore v) (preferenceStore v)
    (clusterPreferenceStore v) (controllerRevision v).

Definition set_kvPodInformer (x : SharedIndexInformer) (v : PkgVars) : PkgVars :=
  mkPkgVars (vmInformer v) (vmiInformer v) (persistentVolumeClaimInformer v)
    (vmiMigrationInformer v) x (clusterConfig v) (vmApplier v)
    (instancetypeStore v) (clusterInstancetypeStore v) (preferenceStore v)
    (clusterPreferenceStore v) (controllerRevision v).

Definition set_clusterConfig (x : ClusterConfig) (v : PkgVars) : PkgVars :=
  mkPkgVars (vmInformer v) (vmiInformer v) (persistentVolumeClaimInformer v)
    (vmiMigrationInformer v) (kvPodInformer v) x (vmApplier v)
    (instancetypeStore v) (clusterInstancetypeStore v) (preferenceStore v)
    (clusterPreferenceStore v) (controllerRevision v).

Definition set_vmApplier (x : vmApplyHandler) (v : PkgVars) : PkgVars :=
  mkPkgVars (vmInformer v) (vmiInformer v) (persistentVolumeClaimInformer v)
    (vmiMigrationInformer v) (kvPodInformer v) (clusterConfig v) x
    (instancetypeStore v) (clusterInstancetypeStore v) (preferenceStore v)
    (clusterPreferenceStore v) (controllerRevision v).

Definition set_instancetypeStore (x : Store) (v : PkgVars) : PkgVars :=
  mkPkgVars (vmInformer v) (vmiInformer v) (persistentVolumeClaimInformer v)
    (vmiMigrationInformer v) (kvPodInformer v) (clusterConfig v) (vmApplier v)
    x (clusterInstancetypeStore v) (preferenceStore v)
    (clusterPreferenceStore v) (controllerRevision v).

Definition set_clusterInstancetypeStore (x : Store) (v : PkgVars) : PkgVars :=
  mkPkgVars (vmInformer v) (vmiInformer v) (persistentVolumeClaimInformer v)
    (vmiMigrationInformer v) (kvPodInformer v) (clusterConfig v) (vmApplier v)
    (instancetypeStore v) x (preferenceStore v)
    (clusterPreferenceStore v) (controllerRevision v).

Definition set_preferenceStore (x : Store) (v : PkgVars) : PkgVars :=
  mkPkgVars (vmInformer v) (vmiInformer v) (persistentVolumeClaimInformer v)
    (vmiMigrationInformer v) (kvPodInformer v) (clusterConfig v) (vmApplier v)
    (instancetypeStore v) (clusterInstancetypeStore v) x
    (clusterPreferenceStore v) (controllerRevision v).

Definition set_clusterPreferenceStore (x : Store) (v : PkgVars) : PkgVars :=
  mkPkgVars (vmInformer v) (vmiInformer v) (persistentVolumeClaimInformer v)
    (vmiMigrationInformer v) (kvPodInformer v) (clusterConfig v) (vmApplier v)
    (instancetypeStore v) (clusterInstancetypeStore v) (preferenceStore v)
    x (controllerRevision v).

Definition set_controllerRevision (x : Store) (v : PkgVars) : PkgVars :=
  mkPkgVars (vmInformer v) (vmiInformer v) (persistentVolumeClaimInformer v)
    (vmiMigrationInformer v) (kvPodInformer v) (clusterConfig v) (vmApplier v)
    (instancetypeStore v) (clusterInstancetypeStore v) (preferenceStore v)
    (clusterPreferenceStore v) x.

(** One entry of the trace: a call into the registry, and the
    package-level variables as they stood when it was made. *)
Record Event : Type := mkEvent {
  ev_call : Call Metric Collector;
  ev_vars : PkgVars
}.

Record World : Type := mkWorld {
  vars : PkgVars;
  registry : Registry;
  trace : list Event
}.

(** A computation runs in the world and either yields a value or panics
    (a nil pointer dereference). *)
Inductive Res (A : Type) : Type :=
  | Ok (a : A)
  | Panic.

Definition M (A : Type) : Type := World -> Res A * World.

#[export] Instance M_ret : MRet M := fun A a w => (Ok A a, w).

#[export] Instance M_bind : MBind M := fun A B f m w =>
  match m w with
  | (Ok _ a, w') => f a w'
  | (Panic _, w') => (Panic B, w')
  end.

(** [p.f] for a pointer [p] to a struct. *)
Definition field {S A : Type} (p : option S) (f : S -> A) : M A :=
  fun w => match p with
           | Some s => (Ok A (f s), w)
           | None => (Panic A, w)
           end.

Definition assign (upd : PkgVars -> PkgVars) : M unit :=
  fun w => (Ok unit tt, mkWorld (upd (vars w)) (registry w) (trace w)).

Definition read_vars : M PkgVars := fun w => (Ok PkgVars (vars w), w).

Definition call (c : Call Metric Collector) : M (option RegError) :=
  fun w =>
    let (r, err) := perform c (registry w) in
    (Ok (option RegError) err,
     mkWorld (vars w) r (trace w ++ [mkEvent c (vars w)])).

Definition SetupMetrics (informers : option Informers) (stores : option Stores)
  (virtClusterConfig : ClusterConfig) (clientset : KubevirtClient)
  : M (option RegError) :=
  x ← field informers Vm; assign (set_vmInformer x);;
  x ← field informers Vmi; assign (set_vmiInformer x);;
  x ← field informers PersistentVolumeClaim;
  assign (set_persistentVolumeClaimInformer x);;
  x ← field informers VmiMigration; assign (set_vmiMigrationInformer x);;
  x ← field informers KvPod; assign (set_kvPodInformer x);;
  assign (set_clusterConfig virtClusterConfig);;

  x ← field stores Instancetype; assign (set_instancetypeStore x);;
  x ← field stores ClusterInstancetype; assign (set_clusterInstancetypeStore x);;
  x ← field stores Preference; assign (set_preferenceStore x);;
  x ← field stores ClusterPreference; assign (set_clusterPreferenceStore x);;
  x ← field stores ControllerRevision; assign (set_controllerRevision x);;

  v ← read_vars;
  assign (set_vmApplier
            (apply_NewVMApplier
               (find_NewSpecFinder
                  (instancetypeStore v) (clusterInstancetypeStore v)
                  (controllerRevision v) clientset)
               (preferenceFind_NewSpecFinder
                  (preferenceStore v) (clusterPreferenceStore v)
                  (controllerRevision v) clientset)));;

  err ← call client_SetupMetrics;
  if err is Some e then mret (Some e) else

  err ← call workqueue_SetupMetrics;
  if err is Some e then mret (Some e) else

  err ← call (operatormetrics_RegisterMetrics metrics);
  if err is Some e then mret (Some e) else

  call (operatormetrics_RegisterCollector
          [migrationStatsCollector; vmiStatsCollector; vmStatsCollector]).

Definition RegisterLeaderMetrics : M (option RegError) :=
  err ← call (operatormetrics_RegisterMetrics [leaderMetrics]);
  if err is Some e then mret (Some e) else mret None.

Definition UpdateVMIMigrationInformer (informer : SharedIndexInformer) : M unit :=
  assign (set_vmiMigrationInformer informer).

Definition ListMetrics : M (list Metric) :=
  fun w => (Ok _ (operatormetrics_ListMetrics (registry w)), w).

(** *** The registration protocol, as the specification words it

    Run the steps in order against the registry; stop at the first one
    that returns an error and hand that error back.  The result lists the
    steps that were performed. *)
Fixpoint first_error_wins (steps : list (Call Metric Collector)) (r : Registry)
  : list (Call Metric Collector) * Registry * option RegError :=
  match steps with
  | [] => ([], r, None)
  | c :: rest =>
      match perform c r with
      | (r', Some e) => ([c], r', Some e)
      | (r', None) =>
          let '(done, r'', err) := first_error_wins rest r' in
          (c :: done, r'', err)
      end
  end.

(** The four registration steps of [SetupMetrics], in program order. *)
Definition registration_steps : list (Call Metric Collector) :=
  [ client_SetupMetrics;
    workqueue_SetupMetrics;
    operatormetrics_RegisterMetrics metrics;
    operatormetrics_RegisterCollector
      [migrationStatsCollector; vmiStatsCollector; vmStatsCollector] ].

(** What the package-level variables hold once the supplied references
    are stored and the VM applier is built from them. *)
Definition stored_vars (i : Informers) (s : Stores)
  (virtClusterConfig : ClusterConfig) (clientset : KubevirtClient) : PkgVars :=
  mkPkgVars (Vm i) (Vmi i) (PersistentVolumeClaim i) (VmiMigration i) (KvPod i)
    virtClusterConfig
    (apply_NewVMApplier
       (find_NewSpecFinder (Instancetype s) (ClusterInstancetype s)
          (ControllerRevision s) clientset)
       (preferenceFind_NewSpecFinder (Preference s) (ClusterPreference s)
          (ControllerRevision s) clientset))
    (Instancetype s) (ClusterInstancetype s) (Preference s)
    (ClusterPreference s) (ControllerRevision s).

(** "No partial-success state is retained": a run that ends in an error
    leaves the package-level variables and the registry as it found
    them. *)
Definition failure_leaves_no_state (informers : option Informers)
  (stores : option Stores) (virtClusterConfig : ClusterConfig)
  (clientset : KubevirtClient) (w : World) : Prop :=
  match SetupMetrics informers stores virtClusterConfig clientset w with
  | (Ok _ (Some _), w') => vars w' = vars w /\ registry w' = registry w
  | _ => True
  end.

End Wiring.

(** *** A registry stub that rejects the metric groups

    Object references are names; the registry is the list of calls it has
    accepted.  [client.SetupMetrics] and [workqueue.SetupMetrics] succeed,
    [operatormetrics.RegisterMetrics] is rejected. *)

Module Stub.

Definition rejects_metric_groups (c : Call string string)
  (r : list (Call string string))
  : list (Call string string) * option string :=
  match c with
  | operatormetrics_RegisterMetrics _ => (r, Some "rejected"%string)
  | _ => (r ++ [c], None)
  end.

Definition ext : Externals := {|
  SharedIndexInformer := string;
  Store := string;
  ClusterConfig := string;
  KubevirtClient := string;
  InstancetypeFinder := list string;
  PreferenceFinder := list string;
  vmApplyHandler := option (list string * list string);
  find_NewSpecFinder := fun a b c d => [a; b; c; d];
  preferenceFind_NewSpecFinder := fun a b c d => [a; b; c; d];
  apply_NewVMApplier := fun f p => Some (f, p);
  Metric := string;
  Collector := string;
  componentMetrics := ["component"%string];
  migrationMetrics := ["migration"%string];
  perfscaleMetrics := ["perfscale"%string];
  vmiMetrics := ["vmi"%string];
  vmSnapshotMetrics := ["vmSnapshot"%string];
  leaderMetrics := ["leader"%string];
  migrationStatsCollector := "migrationStats"%string;
  vmiStatsCollector := "vmiStats"%string;
  vmStatsCollector := "vmStats"%string;
  RegError := string;
  Registry := list (Call string string);
  perform := rejects_metric_groups;
  operatormetrics_ListMetrics := fun _ => []
|}.

Definition informers : @Informers ext :=
  mkInformers (Ext := ext) "vm"%string "vmi"%string "pvc"%string "migration"%string
    "pod"%string.

Definition stores : @Stores ext :=
  mkStores (Ext := ext) "instancetype"%string "clusterInstancetype"%string
    "preference"%string "clusterPreference"%string "revision"%string.

(** The package before [SetupMetrics] has run: every variable holds its
    zero value, nothing is registered. *)
Definition fresh_world : @World ext :=
  mkWorld (Ext := ext)
    (mkPkgVars (Ext := ext) ""%string ""%string ""%string ""%string ""%string
       ""%string None ""%string ""%string ""%string ""%string ""%string)
    [] [].

End Stub.

(** ** Timestamps used in the examples *)

(** The zero [time.Time]: January 1 of year 1, 00:00:00 UTC. *)
Definition zero_Time : metav1.Time := metav1.mkTime (time.mkTime 0 0 None).

(** 2024-01-01 00:00:00 UTC, read from an API object (no monotonic
    reading). *)
Definition new_year_2024 : metav1.Time :=
  metav1.mkTime (time.mkTime 63839664000 0 None).

(** Two and a half seconds later. *)
Definition new_year_2024_plus_2500ms : metav1.Time :=
  metav1.mkTime (time.mkTime 63839664002 500000000 None).

(** ** Finite floats and further example timestamps *)

(** A finite nonzero float of sign [s] whose exponent is at least [emin]
    and whose magnitude (number of mantissa bits plus exponent) lies
    between [lo] and [hi]. *)
Definition SF_within (prec emax : Z) (s : bool) (lo hi : Z) (x : spec_float)
  : Prop :=
  exists m e, x = S754_finite s m e
    /\ SpecFloat.emin prec emax <= e
    /\ lo <= Zpos (digits2_pos m) + e <= hi.

(** Zero or a finite number: neither an infinity nor NaN. *)
Definition is_finite64 (x : float64) : bool :=
  match x with
  | S754_zero _ | S754_finite _ _ _ => true
  | S754_infinity _ | S754_nan => false
  end.
(** One nanosecond after [new_year_2024]. *)
Definition new_year_2024_plus_one_ns : metav1.Time :=
  metav1.mkTime (time.mkTime 63839664000 1 None).

(** One hour after [new_year_2024]. *)
Definition new_year_2024_plus_one_hour : metav1.Time :=
  metav1.mkTime (time.mkTime 63839667600 0 None).

(** ** Facts about binary floating-point rounding *)

Lemma digits2_pos_log2 p : Zpos (digits2_pos p) = Z.log2 (Zpos p) + 1.
Proof.
  induction p as [p IH | p IH |]; simpl digits2_pos; try reflexivity;
    rewrite Pos2Z.inj_succ, IH.
  - change (Zpos p~1) with (2 * Zpos p + 1).
    rewrite Z.log2_succ_double by lia. lia.
  - change (Zpos p~0) with (2 * Zpos p).
    rewrite Z.log2_double by lia. lia.
Qed.

Lemma Zdigits2_log2 m : 0 < m -> Zdigits2 m = Z.log2 m + 1.
Proof. destruct m; try lia. intros _. apply digits2_pos_log2. Qed.

Lemma Zdigits2_pos m : 0 < m -> 0 < Zdigits2 m.
Proof. intros H. rewrite Zdigits2_log2 by easy. pose proof (Z.log2_nonneg m). lia. Qed.

Lemma Zdigits2_mono a b : 0 < a -> a <= b -> Zdigits2 a <= Zdigits2 b.
Proof.
  intros Ha Hab. rewrite !Zdigits2_log2 by lia.
  pose proof (Z.log2_le_mono a b Hab). lia.
Qed.

Lemma Zdigits2_shiftr m n :
  0 < m -> 0 <= n < Zdigits2 m -> Zdigits2 (m / 2 ^ n) = Zdigits2 m - n /\ 0 < m / 2 ^ n.
Proof.
  intros Hm Hn. rewrite Zdigits2_log2 in Hn by easy.
  rewrite <- Z.shiftr_div_pow2 by lia.
  assert (Hpos : 0 < Z.shiftr m n).
  { assert (0 <= Z.shiftr m n) by (apply Z.shiftr_nonneg; lia).
    assert (Z.shiftr m n <> 0) by (rewrite Z.shiftr_eq_0_iff; lia). lia. }
  split; [|exact Hpos].
  rewrite !Zdigits2_log2 by easy.
  rewrite Z.log2_shiftr by easy. lia.
Qed.

Lemma shr_1_div2 mrs : 0 <= shr_m mrs -> shr_m (shr_1 mrs) = shr_m mrs / 2.
Proof.
  destruct mrs as [m r s]. simpl. intros H.
  destruct m as [| p | p]; [reflexivity | | lia].
  destruct p as [p | p |]; simpl shr_m.
  - apply Z.div_unique with (r := 1); lia.
  - apply Z.div_unique with (r := 0); lia.
  - reflexivity.
Qed.

Lemma iter_shr_1_div n : forall mrs, 0 <= shr_m mrs ->
  shr_m (SpecFloat.iter_pos shr_1 n mrs) = shr_m mrs / 2 ^ Zpos n.
Proof.
  assert (P2 : forall a b c, 0 < b -> 0 < c -> a / 2 ^ b / 2 ^ c = a / 2 ^ (b + c)).
  { intros a b c Hb Hc. rewrite Z.pow_add_r by lia.
    assert (0 < 2 ^ b) by (apply Z.pow_pos_nonneg; lia).
    assert (0 < 2 ^ c) by (apply Z.pow_pos_nonneg; lia).
    rewrite Z.div_div by lia. reflexivity. }
  assert (NN : forall a b, 0 <= a -> 0 < b -> 0 <= a / 2 ^ b).
  { intros a b Ha Hb. apply Z.div_pos; [lia|]. apply Z.pow_pos_nonneg; lia. }
  induction n as [n IH | n IH |]; intros mrs H; simpl SpecFloat.iter_pos.
  - rewrite IH, IH, shr_1_div2; try easy.
    + change (2) with (2 ^ 1) at 1. rewrite !P2 by lia. f_equal. f_equal. lia.
    + rewrite shr_1_div2 by easy. apply Z.div_pos; lia.
    + rewrite IH. apply NN. rewrite shr_1_div2 by easy. apply Z.div_pos; lia. lia.
      rewrite shr_1_div2 by easy. apply Z.div_pos; lia.
  - rewrite IH, IH; try easy.
    + rewrite !P2 by lia. f_equal. f_equal. lia.
    + rewrite IH by easy. apply NN; [easy|lia].
  - rewrite shr_1_div2 by easy. reflexivity.
Qed.


Section Rounding.
Variables prec emax : Z.
Hypothesis prec_gt_0 : 0 < prec.

Let emin := SpecFloat.emin prec emax.
Let fexp := SpecFloat.fexp prec emax.

Lemma shr_m_of_loc m l : shr_m (shr_record_of_loc m l) = m.
Proof. destruct l as [| []]; reflexivity. Qed.

Lemma shr_fexp_pos m e l :
  0 < m -> emin < Zdigits2 m + e ->
  exists mrs' e', shr_fexp prec emax m e l = (mrs', e')
    /\ 0 < shr_m mrs'
    /\ Zdigits2 (shr_m mrs') + e' = Zdigits2 m + e
    /\ emin <= e'.
Proof using prec_gt_0.
  intros Hm Hmag. unfold shr_fexp, shr.
  pose proof (Zdigits2_pos m Hm) as Hd.
  assert (Hf : SpecFloat.fexp prec emax (Zdigits2 m + e)
               = Z.max (Zdigits2 m + e - prec) emin) by reflexivity.
  destruct (SpecFloat.fexp prec emax (Zdigits2 m + e) - e) as [| n | n] eqn:En.
  - eexists _, _. split; [reflexivity|]. rewrite shr_m_of_loc. lia.
  - eexists _, _. split; [reflexivity|].
    rewrite iter_shr_1_div by (rewrite shr_m_of_loc; lia).
    rewrite shr_m_of_loc.
    destruct (Zdigits2_shiftr m (Zpos n)) as [Hdig Hpos]; [easy | lia |].
    rewrite Hdig. lia.
  - eexists _, _. split; [reflexivity|]. rewrite shr_m_of_loc. lia.
Qed.

Lemma round_nearest_even_pos m l :
  0 < m -> 0 < round_nearest_even m l
           /\ Zdigits2 m <= Zdigits2 (round_nearest_even m l).
Proof.
  intros Hm.
  assert (H : round_nearest_even m l = m \/ round_nearest_even m l = m + 1).
  { destruct l as [| []]; simpl; auto. destruct (Z.even m); auto. }
  destruct H as [-> | ->]; split; try lia.
  apply Zdigits2_mono; lia.
Qed.

(** Rounding a positive mantissa whose magnitude lies above the smallest
    subnormal never produces a zero or a NaN: the result is a finite
    number or an infinity carrying the requested sign. *)
Lemma binary_round_aux_pos sx m e l :
  0 < m -> emin < Zdigits2 m + e ->
  (exists m' e', binary_round_aux prec emax sx m e l = S754_finite sx m' e'
      /\ emin <= e' /\ Zdigits2 m + e <= Zpos (digits2_pos m') + e')
  \/ binary_round_aux prec emax sx m e l = S754_infinity sx.
Proof using prec_gt_0.
  intros Hm Hmag. unfold binary_round_aux.
  destruct (shr_fexp_pos m e l Hm Hmag) as (mrs1 & e1 & -> & Hp1 & Hd1 & He1).
  destruct (round_nearest_even_pos (shr_m mrs1) (loc_of_shr_record mrs1) Hp1)
    as [Hr Hrd].
  destruct (shr_fexp_pos _ e1 loc_Exact Hr) as (mrs2 & e2 & -> & Hp2 & Hd2 & He2);
    [lia|].
  destruct (shr_m mrs2) as [| m2 | m2] eqn:Em2; try lia.
  destruct (e2 <=? emax - prec).
  - left. exists m2, e2. split; [reflexivity|]. simpl Zdigits2 in Hd2. lia.
  - right. reflexivity.
Qed.

Lemma digits2_pos_iter_xO p d :
  Zpos (digits2_pos (Pos.iter xO p d)) = Zpos (digits2_pos p) + Zpos d.
Proof.
  induction d as [| d IH] using Pos.peano_ind.
  - simpl. lia.
  - rewrite Pos.iter_succ. simpl digits2_pos. lia.
Qed.

Lemma shl_align_mag mx ex ex' :
  Zpos (digits2_pos (fst (shl_align mx ex ex'))) + snd (shl_align mx ex ex')
  = Zpos (digits2_pos mx) + ex.
Proof.
  unfold shl_align. destruct (ex' - ex) as [| d | d] eqn:E; simpl; try reflexivity.
  rewrite digits2_pos_iter_xO. lia.
Qed.

Lemma binary_round_pos sx mx ex :
  emin < Zpos (digits2_pos mx) + ex ->
  (exists m' e', binary_round prec emax sx mx ex = S754_finite sx m' e'
      /\ emin <= e' /\ Zpos (digits2_pos mx) + ex <= Zpos (digits2_pos m') + e')
  \/ binary_round prec emax sx mx ex = S754_infinity sx.
Proof using prec_gt_0.
  intros Hmag. unfold binary_round.
  pose proof (shl_align_mag mx ex
    (SpecFloat.fexp prec emax (Zpos (digits2_pos mx) + ex))) as Hal.
  destruct (shl_align mx ex _) as [mz ez]. simpl in Hal.
  destruct (binary_round_aux_pos sx (Zpos mz) ez loc_Exact) as [(m' & e' & H & ? & ?) | H];
    [lia | simpl; lia | left | right; exact H].
  exists m', e'. split; [exact H|]. simpl Zdigits2 in *. lia.
Qed.
End Rounding.

Section Ops.
Variables prec emax : Z.
Hypothesis prec_gt_0 : 0 < prec.
Let emin := SpecFloat.emin prec emax.

Local Abbreviation signed := (SF_signed prec emax).

Lemma SFadd_same_sign s x y :
  signed s x -> signed s y -> signed s (SFadd prec emax x y).
Proof using prec_gt_0.
  intros [(mx & ex & -> & Hx) | ->] [(my & ey & -> & Hy) | ->];
    try (right; destruct s; reflexivity).
  unfold SFadd.
  set (ez := Z.min ex ey).
  set (a := fst (shl_align mx ex ez)). set (b := fst (shl_align my ey ez)).
  assert (E : cond_Zopp s (Zpos a) + cond_Zopp s (Zpos b)
              = cond_Zopp s (Zpos (a + b))) by (destruct s; reflexivity).
  rewrite E.
  assert (R : binary_normalize prec emax (cond_Zopp s (Zpos (a + b))) ez false
              = binary_round prec emax s (a + b)%positive ez)
    by (destruct s; reflexivity).
  rewrite R.
  destruct (binary_round_pos prec emax prec_gt_0 s (a + b)%positive ez)
    as [(m' & e' & H & ? & ?) | H]; [fold emin; lia | left | right; exact H].
  exists m', e'. auto.
Qed.

Lemma SFdiv_signed sx mx ex sy my ey :
  emin + prec <= (Zpos (digits2_pos mx) + ex) - (Zpos (digits2_pos my) + ey) ->
  signed (xorb sx sy)
    (SFdiv prec emax (S754_finite sx mx ex) (S754_finite sy my ey)).
Proof using prec_gt_0.
  intros Hmag. unfold SFdiv, SFdiv_core_binary.
  set (d1 := Zdigits2 (Zpos mx)). set (d2 := Zdigits2 (Zpos my)).
  assert (Hd1 : d1 = Zpos (digits2_pos mx)) by reflexivity.
  assert (Hd2 : d2 = Zpos (digits2_pos my)) by reflexivity.
  assert (Hf : SpecFloat.fexp prec emax (d1 + ex - (d2 + ey))
               = d1 + ex - (d2 + ey) - prec).
  { unfold SpecFloat.fexp. fold emin. lia. }
  rewrite Hf.
  set (e' := Z.min (d1 + ex - (d2 + ey) - prec) (ex - ey)).
  set (s := ex - ey - e').
  assert (Hs : prec + d2 - d1 <= s /\ 0 <= s) by (unfold s, e'; lia).
  set (m' := match s with Zpos _ => Z.shiftl (Zpos mx) s | 0 => Zpos mx | Zneg _ => 0 end).
  assert (Hm' : m' = Zpos mx * 2 ^ s).
  { unfold m'. destruct s; try lia. rewrite Z.shiftl_mul_pow2 by lia. reflexivity. }
  pose proof (Z_div_mod m' (Zpos my) eq_refl) as Hdm.
  destruct (Z.div_eucl m' (Zpos my)) as [q r].
  destruct Hdm as [Hq Hr].
  (* bounds on the mantissas *)
  assert (B1 : 2 ^ (d1 - 1) <= Zpos mx).
  { rewrite Hd1, digits2_pos_log2. replace (Z.log2 (Zpos mx) + 1 - 1) with (Z.log2 (Zpos mx)) by lia.
    apply Z.log2_spec. lia. }
  assert (B2 : Zpos my < 2 ^ d2).
  { rewrite Hd2, digits2_pos_log2. replace (Z.log2 (Zpos my) + 1) with (Z.succ (Z.log2 (Zpos my))) by lia.
    apply Z.log2_spec. lia. }
  assert (D1 : 0 < d1) by lia. assert (D2 : 0 < d2) by lia.
  set (k := d1 - 1 + s - d2).
  assert (Hk : 0 <= k) by (unfold k; lia).
  assert (Bq : 2 ^ k <= q).
  { assert (P : 2 ^ (d1 - 1) * 2 ^ s = 2 ^ k * 2 ^ d2).
    { rewrite <- !Z.pow_add_r by lia. f_equal. unfold k. lia. }
    assert (0 < 2 ^ s) by (apply Z.pow_pos_nonneg; lia).
    assert (0 < 2 ^ k) by (apply Z.pow_pos_nonneg; lia).
    assert (2 ^ k * 2 ^ d2 <= m') by (rewrite Hm', <- P; nia).
    nia. }
  assert (Qpos : 0 < q) by (assert (0 < 2 ^ k) by (apply Z.pow_pos_nonneg; lia); lia).
  assert (Dq : k + 1 <= Zdigits2 q).
  { rewrite Zdigits2_log2 by easy. apply Z.log2_le_pow2 in Bq; lia. }
  destruct (binary_round_aux_pos prec emax prec_gt_0 (xorb sx sy) q e'
              (new_location (Zpos my) r)) as [(m2 & e2 & H & ? & ?) | H];
    [easy | fold emin; unfold k, s in *; lia | left | right; exact H].
  exists m2, e2. auto.
Qed.

End Ops.

(** ** float64: signs of conversions, quotients by 1e9 and sums *)

Lemma F64_prec_gt_0 : 0 < F64.prec.
Proof. reflexivity. Qed.

Lemma F64_emin : SpecFloat.emin F64.prec F64.emax = -1074.
Proof. reflexivity. Qed.

Abbreviation signed64 := (SF_signed F64.prec F64.emax).

(** Converting a nonzero integer gives a nonzero float of the same sign
    (or an infinity of that sign), of magnitude at least one. *)
Lemma of_Z_signed n :
  n <> 0 ->
  (exists m e, F64.of_Z n = S754_finite (n <? 0) m e
     /\ -1074 <= e /\ 1 <= Zpos (digits2_pos m) + e)
  \/ F64.of_Z n = S754_infinity (n <? 0).
Proof.
  intros Hn. unfold F64.of_Z, binary_normalize.
  assert (Hp : forall p, 1 <= Zpos (digits2_pos p)) by (intros; lia).
  destruct n as [| p | p]; [lia | |].
  - change (Zpos p <? 0) with false.
    destruct (binary_round_pos F64.prec F64.emax F64_prec_gt_0 false p 0)
      as [(m & e & H & He & Hd) | H];
      [rewrite F64_emin; lia | left | right; exact H].
    exists m, e. rewrite F64_emin in He. specialize (Hp p). auto with zarith.
  - change (Zneg p <? 0) with true.
    destruct (binary_round_pos F64.prec F64.emax F64_prec_gt_0 true p 0)
      as [(m & e & H & He & Hd) | H];
      [rewrite F64_emin; lia | left | right; exact H].
    exists m, e. rewrite F64_emin in He. specialize (Hp p). auto with zarith.
Qed.

Lemma of_Z_1e9 :
  F64.of_Z 1000000000 = S754_finite false 8388608000000000 (-23).
Proof. reflexivity. Qed.

Lemma div_1e9_signed n :
  n <> 0 -> signed64 (n <? 0) (F64.div (F64.of_Z n) (F64.of_Z 1000000000)).
Proof.
  intros Hn. rewrite of_Z_1e9. unfold F64.div.
  destruct (of_Z_signed n Hn) as [(m & e & -> & He & Hd) | ->].
  - pose proof (SFdiv_signed F64.prec F64.emax F64_prec_gt_0
                  (n <? 0) m e false 8388608000000000 (-23)) as H.
    rewrite xorb_false_r in H. apply H.
    rewrite F64_emin.
    change (Zpos (digits2_pos 8388608000000000)) with 53.
    unfold F64.prec. lia.
  - right. simpl. rewrite xorb_false_r. reflexivity.
Qed.

Lemma SFadd_zero_l x : signed64 true x -> F64.add (S754_zero false) x = x.
Proof. intros [(m & e & -> & _) | ->]; reflexivity. Qed.

Lemma SFadd_zero_r s x : signed64 s x -> F64.add x (S754_zero false) = x.
Proof. intros [(m & e & -> & _) | ->]; reflexivity. Qed.

Lemma of_Z_signed64 n : n <> 0 -> signed64 (n <? 0) (F64.of_Z n).
Proof.
  intros Hn. destruct (of_Z_signed n Hn) as [(m & e & H & He & _) | H].
  - left. exists m, e. rewrite F64_emin. auto.
  - right. exact H.
Qed.

(** A negative duration has a negative number of seconds: neither the
    quotient by 1e9 nor the sum rounds to zero. *)
Lemma Seconds_negative d : d < 0 -> signed64 true (time.Seconds d).
Proof.
  intros Hd. unfold time.Seconds.
  change time.Second with 1000000000.
  set (sec := Z.quot d 1000000000). set (nsec := Z.rem d 1000000000).
  assert (Hqr : d = 1000000000 * sec + nsec /\ sec <= 0 /\ nsec <= 0).
  { unfold sec, nsec. Z.quot_rem_to_equations. lia. }
  destruct Hqr as (Hrel & Hsec & Hnsec).
  destruct (Z.eq_dec sec 0) as [Es | Es]; destruct (Z.eq_dec nsec 0) as [En | En].
  - lia.
  - rewrite Es. change (F64.of_Z 0) with (S754_zero false).
    pose proof (div_1e9_signed nsec En) as Hy.
    replace (nsec <? 0) with true in Hy by (symmetry; apply Z.ltb_lt; lia).
    rewrite SFadd_zero_l by exact Hy. exact Hy.
  - rewrite En. change (F64.div (F64.of_Z 0) (F64.of_Z 1000000000))
      with (S754_zero false).
    pose proof (of_Z_signed64 sec Es) as Hx.
    replace (sec <? 0) with true in Hx by (symmetry; apply Z.ltb_lt; lia).
    rewrite (SFadd_zero_r true) by exact Hx. exact Hx.
  - pose proof (of_Z_signed64 sec Es) as Hx.
    pose proof (div_1e9_signed nsec En) as Hy.
    replace (sec <? 0) with true in Hx by (symmetry; apply Z.ltb_lt; lia).
    replace (nsec <? 0) with true in Hy by (symmetry; apply Z.ltb_lt; lia).
    apply SFadd_same_sign; [exact F64_prec_gt_0 | exact Hx | exact Hy].
Qed.

(** A non-negative duration has zero seconds or a positive number of
    seconds; in particular its seconds are not NaN. *)
Lemma Seconds_nonnegative d :
  0 <= d -> time.Seconds d = F64.zero \/ signed64 false (time.Seconds d).
Proof.
  intros Hd. unfold time.Seconds.
  change time.Second with 1000000000.
  set (sec := Z.quot d 1000000000). set (nsec := Z.rem d 1000000000).
  assert (Hqr : 0 <= sec /\ 0 <= nsec).
  { unfold sec, nsec. Z.quot_rem_to_equations. lia. }
  destruct Hqr as (Hsec & Hnsec).
  destruct (Z.eq_dec sec 0) as [Es | Es]; destruct (Z.eq_dec nsec 0) as [En | En].
  - left. rewrite Es, En. reflexivity.
  - right. rewrite Es. change (F64.of_Z 0) with (S754_zero false).
    pose proof (div_1e9_signed nsec En) as Hy.
    replace (nsec <? 0) with false in Hy by (symmetry; apply Z.ltb_ge; lia).
    destruct Hy as [(m & e & E & He) | E]; rewrite E; simpl;
      [left; eauto | right; reflexivity].
  - right. rewrite En. change (F64.div (F64.of_Z 0) (F64.of_Z 1000000000))
      with (S754_zero false).
    pose proof (of_Z_signed64 sec Es) as Hx.
    replace (sec <? 0) with false in Hx by (symmetry; apply Z.ltb_ge; lia).
    rewrite (SFadd_zero_r false) by exact Hx. exact Hx.
  - right. pose proof (of_Z_signed64 sec Es) as Hx.
    pose proof (div_1e9_signed nsec En) as Hy.
    replace (sec <? 0) with false in Hx by (symmetry; apply Z.ltb_ge; lia).
    replace (nsec <? 0) with false in Hy by (symmetry; apply Z.ltb_ge; lia).
    apply SFadd_same_sign; [exact F64_prec_gt_0 | exact Hx | exact Hy].
Qed.

Lemma ltb_zero_of_negative x :
  signed64 true x -> F64.ltb x (F64.of_Z 0) = true.
Proof. intros [(m & e & -> & _) | ->]; reflexivity. Qed.

Lemma ltb_zero_of_positive x :
  signed64 false x -> F64.ltb x (F64.of_Z 0) = false /\ F64.leb F64.zero x = true.
Proof. intros [(m & e & -> & _) | ->]; split; reflexivity. Qed.

(** The floor of [getTransitionTimeSeconds] is applied exactly to the
    negative durations. *)
Lemma Seconds_ltb_zero d :
  F64.ltb (time.Seconds d) (F64.of_Z 0) = (d <? 0).
Proof.
  destruct (Z.ltb_spec d 0) as [H | H].
  - apply ltb_zero_of_negative, Seconds_negative, H.
  - destruct (Seconds_nonnegative d H) as [-> | Hs]; [reflexivity|].
    apply ltb_zero_of_positive, Hs.
Qed.

(** ** [time]: the sign of a difference *)

Lemma saturate_id d :
  time.minDuration <= d <= time.maxDuration -> time.saturate d = d.
Proof.
  intros [Hlo Hhi]. unfold time.saturate.
  destruct (Z.ltb_spec d time.minDuration); [lia|].
  destruct (Z.ltb_spec time.maxDuration d); [lia|]. reflexivity.
Qed.

Lemma saturate_sign d : (time.saturate d <? 0) = (d <? 0).
Proof.
  unfold time.saturate.
  destruct (Z.ltb_spec d time.minDuration) as [H | H].
  - unfold time.minDuration in *. symmetry. apply Z.ltb_lt. lia.
  - destruct (Z.ltb_spec time.maxDuration d) as [H' | H']; [|reflexivity].
    unfold time.maxDuration in *. symmetry. apply Z.ltb_ge. lia.
Qed.

Lemma since_not_before t u :
  time.valid t -> time.valid u -> time.Before t u = false -> 0 <= time.since t u.
Proof.
  intros (_ & Ht & _) (_ & Hu & _). unfold time.Before, time.since.
  change time.Second with 1000000000.
  destruct (time.mono t), (time.mono u); lia.
Qed.

Lemma since_before t u :
  time.valid t -> time.valid u -> time.Before t u = true -> time.since t u < 0.
Proof.
  intros (_ & Ht & _) (_ & Hu & _). unfold time.Before, time.since.
  change time.Second with 1000000000.
  destruct (time.mono t), (time.mono u); lia.
Qed.

Lemma since_equal t u : time.Equal t u = true -> time.since t u = 0.
Proof.
  unfold time.Equal, time.since.
  destruct (time.mono t), (time.mono u); lia.
Qed.

Lemma transition_time_unfold (a b : metav1.Time) :
  getTransitionTimeSeconds (Some a) (Some b)
  = let d := time.Sub (metav1.Time_ b) (metav1.Time_ a) in
    (if d <? 0 then F64.zero else time.Seconds d, None).
Proof.
  unfold getTransitionTimeSeconds. cbv zeta. rewrite Seconds_ltb_zero.
  reflexivity.
Qed.

(** ** [getTransitionTimeSeconds] *)

(** C1, as amended.  For two present, well-formed timestamps with [newTime]
    not before [oldTime] whose exact difference fits a [Duration] (at most
    2^63 - 1 nanoseconds, about 292 years), the function returns no error
    and the seconds of the exact nanosecond difference: the floor is not
    applied and [Sub] does not saturate. *)
Theorem transition_time_elapsed (oldTime newTime : metav1.Time) :
  time.valid (metav1.Time_ oldTime) ->
  time.valid (metav1.Time_ newTime) ->
  time.Before (metav1.Time_ newTime) (metav1.Time_ oldTime) = false ->
  time.since (metav1.Time_ newTime) (metav1.Time_ oldTime) <= time.maxDuration ->
  returns_elapsed_seconds oldTime newTime.
Proof.
  intros Hold Hnew Hord Hfit. unfold returns_elapsed_seconds.
  rewrite transition_time_unfold. cbv zeta.
  pose proof (since_not_before _ _ Hnew Hold Hord) as Hpos.
  unfold time.Sub. rewrite saturate_sign.
  rewrite saturate_id by (unfold time.minDuration; lia).
  replace (_ <? 0) with false by (symmetry; apply Z.ltb_ge; exact Hpos).
  reflexivity.
Qed.

Lemma transition_time_elapsed_witness :
  returns_elapsed_seconds new_year_2024 new_year_2024_plus_2500ms
  /\ F64.to_Q (fst (getTransitionTimeSeconds (Some new_year_2024)
                      (Some new_year_2024_plus_2500ms))) = Some (5 # 2)%Q.
Proof.
  split.
  - apply (transition_time_elapsed new_year_2024 new_year_2024_plus_2500ms).
    + unfold time.valid, time.int64_range; simpl; lia.
    + unfold time.valid, time.int64_range; simpl; lia.
    + reflexivity.
    + vm_compute. discriminate.
  - vm_compute. reflexivity.
Defined.

(** C1 as worded fails when the two timestamps are more than 2^63 - 1
    nanoseconds apart: from the zero [Time] to the first second of 2024
    the elapsed time is 63839664000 seconds, and the function returns the
    seconds of [maxDuration], about 9223372036.85. *)
Lemma transition_time_saturates :
  time.valid (metav1.Time_ zero_Time)
  /\ time.valid (metav1.Time_ new_year_2024)
  /\ time.Before (metav1.Time_ new_year_2024) (metav1.Time_ zero_Time) = false
  /\ time.since (metav1.Time_ new_year_2024) (metav1.Time_ zero_Time)
     = 63839664000 * time.Second
  /\ getTransitionTimeSeconds (Some zero_Time) (Some new_year_2024)
     = (time.Seconds time.maxDuration, None)
  /\ F64.to_Q (time.Seconds time.maxDuration)
     = Some (4835703278458517 # 524288)%Q
  /\ ~ returns_elapsed_seconds zero_Time new_year_2024.
Proof.
  repeat split; try (unfold time.int64_range; simpl; lia);
    try (vm_compute; congruence).
Qed.

(** C2.  For two present, well-formed timestamps with [newTime] before
    [oldTime], or equal to it, the function returns exactly 0.0 and no
    error. *)
Theorem transition_time_floor (oldTime newTime : metav1.Time) :
  time.valid (metav1.Time_ oldTime) ->
  time.valid (metav1.Time_ newTime) ->
  time.Before (metav1.Time_ newTime) (metav1.Time_ oldTime) = true
  \/ time.Equal (metav1.Time_ newTime) (metav1.Time_ oldTime) = true ->
  getTransitionTimeSeconds (Some oldTime) (Some newTime) = (F64.zero, None).
Proof.
  intros Hold Hnew Hord. rewrite transition_time_unfold. cbv zeta.
  unfold time.Sub. rewrite saturate_sign.
  destruct Hord as [Hlt | Heq].
  - pose proof (since_before _ _ Hnew Hold Hlt) as Hneg.
    replace (_ <? 0) with true by (symmetry; apply Z.ltb_lt; exact Hneg).
    reflexivity.
  - rewrite (since_equal _ _ Heq). reflexivity.
Qed.

Lemma transition_time_floor_witness :
  getTransitionTimeSeconds (Some new_year_2024_plus_2500ms) (Some new_year_2024)
  = (F64.zero, None)
  /\ getTransitionTimeSeconds (Some new_year_2024) (Some new_year_2024)
     = (F64.zero, None).
Proof.
  split.
  - apply (transition_time_floor new_year_2024_plus_2500ms new_year_2024).
    + unfold time.valid, time.int64_range; simpl; lia.
    + unfold time.valid, time.int64_range; simpl; lia.
    + left. reflexivity.
  - apply (transition_time_floor new_year_2024 new_year_2024).
    + unfold time.valid, time.int64_range; simpl; lia.
    + unfold time.valid, time.int64_range; simpl; lia.
    + right. reflexivity.
Defined.

(** C3.  The function returns an error exactly when one of the two
    timestamps is nil.  The error is built from the format string and the
    two inputs, [newTime] first, and comes with the literal 0.0: no
    duration is computed. *)
Theorem missing_timestamp_error (oldTime newTime : option metav1.Time) :
  (snd (getTransitionTimeSeconds oldTime newTime) <> None
   <-> oldTime = None \/ newTime = None)
  /\ getTransitionTimeSeconds oldTime newTime
     = if is_nil newTime || is_nil oldTime
       then (F64.zero,
             Some (fmt_Errorf
                     "missing phase transition timestamp, newTime: %v, oldTime: %v"
                     [newTime; oldTime]))
       else (fst (getTransitionTimeSeconds oldTime newTime), None).
Proof.
  destruct oldTime as [a |], newTime as [b |]; simpl; split;
    try reflexivity; split; intros H; try congruence; auto;
    destruct H; congruence.
Qed.

(** C6.  Whatever the inputs, nil or not, the number returned is at
    least zero. *)
Theorem transition_time_nonnegative (oldTime newTime : option metav1.Time) :
  F64.leb F64.zero (fst (getTransitionTimeSeconds oldTime newTime)) = true.
Proof.
  destruct oldTime as [a |], newTime as [b |]; try reflexivity.
  rewrite transition_time_unfold. cbv zeta. cbn [fst].
  destruct (Z.ltb_spec (time.Sub (metav1.Time_ b) (metav1.Time_ a)) 0) as [H | H];
    [reflexivity|].
  destruct (Seconds_nonnegative _ H) as [-> | Hs]; [reflexivity|].
  apply ltb_zero_of_positive, Hs.
Qed.

(** C8.  With a nil timestamp on either side, the number that accompanies
    the error is the literal 0.0. *)
Theorem missing_timestamp_value (oldTime newTime : option metav1.Time) :
  fst (getTransitionTimeSeconds None newTime) = F64.zero
  /\ fst (getTransitionTimeSeconds oldTime None) = F64.zero
  /\ F64.to_Q F64.zero = Some (0 # 1)%Q.
Proof.
  repeat split; destruct oldTime, newTime; reflexivity.
Qed.

(** ** [PhaseTransitionTimeBuckets] *)

Lemma literal_is_ladder : PhaseTransitionTimeBuckets_literal = bucket_ladder.
Proof. vm_compute. reflexivity. Qed.

Lemma buckets_elements (h : gmap loc (list float64)) :
  elements (snd (PhaseTransitionTimeBuckets h)) (fst (PhaseTransitionTimeBuckets h))
  = Some bucket_ladder.
Proof.
  unfold PhaseTransitionTimeBuckets, elements. cbn [fst snd array len].
  rewrite lookup_insert_eq, firstn_all, literal_is_ladder. reflexivity.
Qed.

(** C4.  From any heap, the call returns a slice of length and capacity 18
    whose elements are the float64 values of 0.5, 1, 2, 5, 10, 20, 30, 40,
    50, 60, 90, 120, 180, 300, 600, 1200, 1800 and 3600, in this order;
    the sequence is strictly increasing, starts at 0.5 and ends at 3600.
    The function has no failing path. *)
Theorem buckets_are_the_ladder (h : gmap loc (list float64)) :
  elements (snd (PhaseTransitionTimeBuckets h)) (fst (PhaseTransitionTimeBuckets h))
  = Some bucket_ladder
  /\ len (fst (PhaseTransitionTimeBuckets h)) = 18%nat
  /\ cap (fst (PhaseTransitionTimeBuckets h)) = 18%nat
  /\ length bucket_ladder = 18%nat
  /\ map F64.to_Q bucket_ladder = map Some bucket_ladder_Q
  /\ strictly_increasing bucket_ladder = true
  /\ F64.to_Q (List.hd F64.zero bucket_ladder) = Some (1 # 2)%Q
  /\ F64.to_Q (List.last bucket_ladder F64.zero) = Some (3600 # 1)%Q.
Proof.
  split; [apply buckets_elements|].
  repeat split; vm_compute; reflexivity.
Qed.

(** C7.  Any two calls, from whatever heaps (so also two calls in a row,
    whatever the caller did to the first slice in between), return
    slices with the same 18 elements; and the backing array of a returned
    slice is new, so no slice handed out earlier shares it. *)
Theorem buckets_stable (h1 h2 : gmap loc (list float64)) :
  elements (snd (PhaseTransitionTimeBuckets h2)) (fst (PhaseTransitionTimeBuckets h2))
  = elements (snd (PhaseTransitionTimeBuckets h1)) (fst (PhaseTransitionTimeBuckets h1))
  /\ (forall i : nat,
        (elements (snd (PhaseTransitionTimeBuckets h2))
           (fst (PhaseTransitionTimeBuckets h2)) ≫= fun l => nth_error l i)
        = nth_error bucket_ladder i)
  /\ len (fst (PhaseTransitionTimeBuckets h2)) = 18%nat
  /\ h2 !! array (fst (PhaseTransitionTimeBuckets h2)) = None.
Proof.
  rewrite !buckets_elements. repeat split.
  unfold PhaseTransitionTimeBuckets. cbn [fst array].
  apply not_elem_of_dom, is_fresh.
Qed.

(** A caller that overwrites an element of the slice it was handed does not
    change what the next call returns. *)
Lemma buckets_after_caller_write (h : gmap loc (list float64)) (i : nat)
  (v : float64) :
  let (s1, h1) := PhaseTransitionTimeBuckets h in
  match slice_store h1 s1 i v with
  | Some h1' =>
      let (s2, h2) := PhaseTransitionTimeBuckets h1' in
      elements h2 s2 = Some bucket_ladder /\ array s2 <> array s1
  | None => (18 <= i)%nat
  end.
Proof.
  pose proof (buckets_elements h) as E1.
  destruct (PhaseTransitionTimeBuckets h) as [s1 h1] eqn:P1.
  assert (Hlen : len s1 = 18%nat)
    by (unfold PhaseTransitionTimeBuckets in P1; inversion P1; reflexivity).
  cbn [fst snd] in E1. unfold slice_store. unfold elements in E1.
  destruct (h1 !! array s1) as [a |] eqn:L; [|discriminate].
  rewrite Hlen. destruct (Nat.ltb_spec i 18) as [Hi | Hi]; [|exact Hi].
  pose proof (buckets_elements (<[array s1 := <[i := v]> a]> h1)) as E2.
  pose proof (is_fresh (dom (<[array s1 := <[i := v]> a]> h1))) as Hf.
  destruct (PhaseTransitionTimeBuckets _) as [s2 h2] eqn:P2.
  split; [exact E2|].
  unfold PhaseTransitionTimeBuckets in P2. inversion P2; subst s2. cbn [array].
  intros Heq. apply Hf. rewrite Heq. apply elem_of_dom.
  rewrite lookup_insert_eq. eauto.
Qed.

(** ** The registration wiring *)

Section WiringFacts.
Context `{Ext : Externals}.

Ltac run_wiring :=
  lazy [SetupMetrics UpdateVMIMigrationInformer
        mbind M_bind mret M_ret field assign read_vars call
        vars registry trace
        set_vmInformer set_vmiInformer set_persistentVolumeClaimInformer
        set_vmiMigrationInformer set_kvPodInformer set_clusterConfig
        set_vmApplier set_instancetypeStore set_clusterInstancetypeStore
        set_preferenceStore set_clusterPreferenceStore set_controllerRevision
        vmInformer vmiInformer persistentVolumeClaimInformer
        vmiMigrationInformer kvPodInformer clusterConfig vmApplier
        instancetypeStore clusterInstancetypeStore preferenceStore
        clusterPreferenceStore controllerRevision
        Vm Vmi PersistentVolumeClaim VmiMigration KvPod
        Instancetype ClusterInstancetype Preference ClusterPreference
        ControllerRevision].

(** [SetupMetrics] with both pointers present: the references are stored,
    the applier is built, and then the four steps run until one fails. *)
Lemma SetupMetrics_run (i : Informers) (s : Stores) (cfg : ClusterConfig)
  (cli : KubevirtClient) (w : World) :
  SetupMetrics (Some i) (Some s) cfg cli w
  = let '(done, r, err) := first_error_wins registration_steps (registry w) in
    (Ok _ err,
     mkWorld (stored_vars i s cfg cli) r
       (trace w ++ map (fun c => mkEvent c (stored_vars i s cfg cli)) done)).
Proof.
  destruct w as [v r t], v, i, s.
  unfold stored_vars, registration_steps, first_error_wins.
  run_wiring.
  destruct (perform client_SetupMetrics r) as [r1 [e1 |]]; [reflexivity|].
  destruct (perform workqueue_SetupMetrics r1) as [r2 [e2 |]];
    [rewrite <- app_assoc; reflexivity|].
  destruct (perform (operatormetrics_RegisterMetrics metrics) r2)
    as [r3 [e3 |]]; [rewrite <- !app_assoc; reflexivity|].
  destruct (perform (operatormetrics_RegisterCollector _) r3) as [r4 [e4 |]];
    rewrite <- !app_assoc; reflexivity.
Qed.

Lemma first_error_wins_nonempty (c : Call Metric Collector)
  (rest : list (Call Metric Collector)) (r : Registry) :
  fst (fst (first_error_wins (c :: rest) r)) <> [].
Proof.
  simpl. destruct (perform c r) as [r' [e |]]; [discriminate|].
  destruct (first_error_wins rest r') as [[done r''] err]. discriminate.
Qed.

(** C5, as amended.  With both pointers present, [SetupMetrics] performs
    [client.SetupMetrics], [workqueue.SetupMetrics],
    [operatormetrics.RegisterMetrics] on the five groups (component,
    migration, perfscale, VMI, VM snapshot, in this order) and
    [operatormetrics.RegisterCollector] on the three collectors, in this
    order, and stops at the first step that returns an error: that error
    is returned unchanged and no later step is performed.  Nothing is
    undone: the registry is left as the performed steps made it, and the
    package-level variables hold the stored references. *)
Theorem SetupMetrics_first_error_wins (i : Informers) (s : Stores)
  (cfg : ClusterConfig) (cli : KubevirtClient) (w : World) :
  let '(done, r, err) := first_error_wins registration_steps (registry w) in
  SetupMetrics (Some i) (Some s) cfg cli w
  = (Ok _ err,
     mkWorld (stored_vars i s cfg cli) r
       (trace w ++ map (fun c => mkEvent c (stored_vars i s cfg cli)) done))
  /\ registration_steps
     = [ client_SetupMetrics;
         workqueue_SetupMetrics;
         operatormetrics_RegisterMetrics
           [ componentMetrics; migrationMetrics; perfscaleMetrics; vmiMetrics;
             vmSnapshotMetrics ];
         operatormetrics_RegisterCollector
           [ migrationStatsCollector; vmiStatsCollector; vmStatsCollector ] ].
Proof.
  pose proof (SetupMetrics_run i s cfg cli w) as H.
  destruct (first_error_wins registration_steps (registry w)) as [[done r] err].
  split; [exact H | reflexivity].
Qed.

(** C9.  With both pointers present, and whatever the registry answers,
    [SetupMetrics] returns (it does not panic) with the package-level
    variables holding the supplied informers, stores and configuration and
    the applier built from the stored stores and the client; every call
    into the registry, of which there is at least one, was made with the
    variables already in that state.  This holds in particular when the
    result is a registration error. *)
Theorem SetupMetrics_stores_references (i : Informers) (s : Stores)
  (cfg : ClusterConfig) (cli : KubevirtClient) (w : World) :
  exists (err : option RegError) (events : list Event),
    fst (SetupMetrics (Some i) (Some s) cfg cli w) = Ok _ err
    /\ vars (snd (SetupMetrics (Some i) (Some s) cfg cli w))
       = mkPkgVars (Vm i) (Vmi i) (PersistentVolumeClaim i) (VmiMigration i)
           (KvPod i) cfg
           (apply_NewVMApplier
              (find_NewSpecFinder (Instancetype s) (ClusterInstancetype s)
                 (ControllerRevision s) cli)
              (preferenceFind_NewSpecFinder (Preference s) (ClusterPreference s)
                 (ControllerRevision s) cli))
           (Instancetype s) (ClusterInstancetype s) (Preference s)
           (ClusterPreference s) (ControllerRevision s)
    /\ trace (snd (SetupMetrics (Some i) (Some s) cfg cli w)) = trace w ++ events
    /\ events <> []
    /\ Forall (fun ev => ev_vars ev
                 = vars (snd (SetupMetrics (Some i) (Some s) cfg cli w)))
         events.
Proof.
  rewrite SetupMetrics_run.
  pose proof (first_error_wins_nonempty client_SetupMetrics
                (tl registration_steps) (registry w)) as Hne.
  change (client_SetupMetrics :: tl registration_steps)
    with registration_steps in Hne.
  destruct (first_error_wins registration_steps (registry w)) as [[done r] err].
  cbn [fst snd vars trace] in *.
  exists err, (map (fun c => mkEvent c (stored_vars i s cfg cli)) done).
  repeat split.
  - destruct done; [congruence | discriminate].
  - apply List.Forall_forall. intros ev Hin. apply in_map_iff in Hin.
    destruct Hin as (c & <- & _). reflexivity.
Qed.

(** C10.  [UpdateVMIMigrationInformer] returns with the VMI-migration
    informer replaced by its argument and every other package-level
    variable, the registry and the trace as they were. *)
Theorem UpdateVMIMigrationInformer_frame (informer : SharedIndexInformer)
  (w : World) :
  fst (UpdateVMIMigrationInformer informer w) = Ok _ tt
  /\ let w' := snd (UpdateVMIMigrationInformer informer w) in
     vmiMigrationInformer (vars w') = informer
     /\ vmInformer (vars w') = vmInformer (vars w)
     /\ vmiInformer (vars w') = vmiInformer (vars w)
     /\ persistentVolumeClaimInformer (vars w')
        = persistentVolumeClaimInformer (vars w)
     /\ kvPodInformer (vars w') = kvPodInformer (vars w)
     /\ instancetypeStore (vars w') = instancetypeStore (vars w)
     /\ clusterInstancetypeStore (vars w') = clusterInstancetypeStore (vars w)
     /\ preferenceStore (vars w') = preferenceStore (vars w)
     /\ clusterPreferenceStore (vars w') = clusterPreferenceStore (vars w)
     /\ controllerRevision (vars w') = controllerRevision (vars w)
     /\ clusterConfig (vars w') = clusterConfig (vars w)
     /\ vmApplier (vars w') = vmApplier (vars w)
     /\ registry w' = registry w
     /\ trace w' = trace w.
Proof.
  destruct w as [v r t], v. run_wiring. repeat split.
Qed.

End WiringFacts.

(** C5 as worded fails on "no partial-success state is retained".  Against
    the stub that rejects the metric groups, [SetupMetrics] returns the
    error; the package-level variables then hold the supplied references
    and the registry holds what [client.SetupMetrics] and
    [workqueue.SetupMetrics] registered. *)
Lemma SetupMetrics_keeps_partial_state :
  fst (SetupMetrics (Ext := Stub.ext) (Some Stub.informers) (Some Stub.stores)
         "config"%string "client"%string Stub.fresh_world)
  = Ok _ (Some "rejected"%string)
  /\ registry (snd (SetupMetrics (Ext := Stub.ext) (Some Stub.informers)
                      (Some Stub.stores) "config"%string "client"%string
                      Stub.fresh_world))
     = [client_SetupMetrics; workqueue_SetupMetrics]
  /\ vmInformer (vars (snd (SetupMetrics (Ext := Stub.ext) (Some Stub.informers)
                              (Some Stub.stores) "config"%string "client"%string
                              Stub.fresh_world)))
     = "vm"%string
  /\ ~ failure_leaves_no_state (Ext := Stub.ext) (Some Stub.informers)
         (Some Stub.stores) "config"%string "client"%string Stub.fresh_world.
Proof.
  repeat split; try (vm_compute; reflexivity).
  vm_compute. intros [H _]. discriminate H.
Qed.

(** A nil [informers] pointer panics on the first field access, before
    anything is stored; a nil [stores] pointer panics once the informers
    and the configuration are stored, before any registration. *)
Example SetupMetrics_nil_informers :
  SetupMetrics (Ext := Stub.ext) None (Some Stub.stores) "config"%string
    "client"%string Stub.fresh_world
  = (Panic _, Stub.fresh_world).
Proof. reflexivity. Qed.

Example SetupMetrics_nil_stores :
  let r := SetupMetrics (Ext := Stub.ext) (Some Stub.informers) None
             "config"%string "client"%string Stub.fresh_world in
  fst r = Panic _
  /\ vmInformer (vars (snd r)) = "vm"%string
  /\ clusterConfig (vars (snd r)) = "config"%string
  /\ instancetypeStore (vars (snd r)) = ""%string
  /\ trace (snd r) = [].
Proof. repeat split. Qed.

(** ** Finite results of rounding, sums and quotients *)

Lemma round_nearest_even_digits m l :
  0 < m -> Zdigits2 (round_nearest_even m l) <= Zdigits2 m + 1.
Proof.
  intros Hm.
  assert (H : round_nearest_even m l = m \/ round_nearest_even m l = m + 1).
  { destruct l as [| []]; simpl; auto. destruct (Z.even m); auto. }
  destruct H as [-> | ->]; [lia|].
  rewrite !Zdigits2_log2 by lia.
  pose proof (Z.log2_succ_le m). unfold Z.succ in *. lia.
Qed.

Lemma shl_align_exponent mx ex ex' :
  snd (shl_align mx ex ex') = Z.min ex ex'.
Proof.
  unfold shl_align. destruct (ex' - ex) as [| d | d] eqn:E; cbn [snd]; lia.
Qed.

Lemma digits2_pos_add a b k :
  Zpos (digits2_pos a) <= k -> Zpos (digits2_pos b) <= k ->
  Zpos (digits2_pos (a + b)) <= k + 1.
Proof.
  intros Ha Hb. rewrite digits2_pos_log2 in *.
  assert (Hk : 0 <= k) by (pose proof (Z.log2_nonneg (Zpos a)); lia).
  assert (A : Zpos a < 2 ^ k).
  { apply Z.log2_lt_pow2; lia. }
  assert (B : Zpos b < 2 ^ k).
  { apply Z.log2_lt_pow2; lia. }
  assert (Z.log2 (Zpos (a + b)) < k + 1).
  { apply Z.log2_lt_pow2; [lia|]. rewrite Z.pow_add_r by lia. lia. }
  lia.
Qed.

Section Finite.
Variables prec emax : Z.
Hypothesis prec_gt_0 : 0 < prec.
Hypothesis emax_ge_2 : 2 <= emax.

Local Abbreviation emin := (SpecFloat.emin prec emax).
Local Abbreviation fexp := (SpecFloat.fexp prec emax).

Lemma shr_fexp_exponent m e l :
  snd (shr_fexp prec emax m e l) = Z.max e (fexp (Zdigits2 m + e)).
Proof.
  unfold shr_fexp, shr.
  destruct (fexp (Zdigits2 m + e) - e) as [| n | n] eqn:En; cbn [snd]; lia.
Qed.

Lemma fexp_le_top k : k <= emax -> fexp k <= emax - prec.
Proof using emax_ge_2. unfold SpecFloat.fexp, SpecFloat.emin. lia. Qed.


(** Rounding a positive mantissa whose magnitude lies between the smallest
    subnormal and the overflow threshold gives a finite number, of a
    magnitude at most one more. *)
Lemma binary_round_aux_within sx m e l :
  0 < m -> emin < Zdigits2 m + e -> Zdigits2 m + e + 1 <= emax ->
  e <= emax - prec ->
  SF_within prec emax sx (Zdigits2 m + e) (Zdigits2 m + e + 1)
    (binary_round_aux prec emax sx m e l).
Proof using prec_gt_0 emax_ge_2.
  intros Hm Hlo Hhi He. unfold binary_round_aux.
  pose proof (shr_fexp_exponent m e l) as X1.
  destruct (shr_fexp_pos prec emax prec_gt_0 m e l Hm Hlo)
    as (mrs1 & e1 & E1 & Hp1 & Hd1 & He1).
  rewrite E1 in X1 |- *. cbn [snd] in X1.
  destruct (round_nearest_even_pos prec emax (shr_m mrs1) (loc_of_shr_record mrs1) Hp1)
    as [Hr Hrd].
  pose proof (round_nearest_even_digits (shr_m mrs1) (loc_of_shr_record mrs1) Hp1)
    as Hru.
  set (m1 := round_nearest_even (shr_m mrs1) (loc_of_shr_record mrs1)) in *.
  pose proof (shr_fexp_exponent m1 e1 loc_Exact) as X2.
  destruct (shr_fexp_pos prec emax prec_gt_0 m1 e1 loc_Exact Hr)
    as (mrs2 & e2 & E2 & Hp2 & Hd2 & He2); [lia|].
  rewrite E2 in X2 |- *. cbn [snd] in X2.
  pose proof (fexp_le_top (Zdigits2 m + e)).
  pose proof (fexp_le_top (Zdigits2 m1 + e1)).
  destruct (shr_m mrs2) as [| m2 | m2] eqn:Em2; try lia.
  simpl Zdigits2 in Hd2.
  replace (e2 <=? emax - prec) with true by (symmetry; apply Z.leb_le; lia).
  exists m2, e2. split; [reflexivity|]. lia.
Qed.


Lemma binary_round_within sx mx ex :
  emin < Zpos (digits2_pos mx) + ex -> Zpos (digits2_pos mx) + ex + 1 <= emax ->
  SF_within prec emax sx (Zpos (digits2_pos mx) + ex)
    (Zpos (digits2_pos mx) + ex + 1) (binary_round prec emax sx mx ex).
Proof using prec_gt_0 emax_ge_2.
  intros Hlo Hhi. unfold binary_round.
  pose proof (shl_align_mag prec emax mx ex (fexp (Zpos (digits2_pos mx) + ex))) as Hal.
  pose proof (shl_align_exponent mx ex (fexp (Zpos (digits2_pos mx) + ex))) as Hex.
  pose proof (fexp_le_top (Zpos (digits2_pos mx) + ex)).
  destruct (shl_align mx ex _) as [mz ez]. cbn [fst snd] in Hal, Hex.
  rewrite <- Hal.
  apply (binary_round_aux_within sx (Zpos mz) ez loc_Exact); simpl Zdigits2; lia.
Qed.


(** The sum of two finite numbers of one sign is finite, as long as their
    magnitudes stay two below the overflow threshold. *)
Lemma SFadd_within s lo hi x y :
  SF_within prec emax s lo hi x -> SF_within prec emax s lo hi y ->
  hi + 2 <= emax ->
  SF_within prec emax s lo (hi + 2) (SFadd prec emax x y).
Proof using prec_gt_0 emax_ge_2.
  intros (mx & ex & -> & Hex & Hmx) (my & ey & -> & Hey & Hmy) Hhi.
  unfold SFadd.
  set (ez := Z.min ex ey).
  pose proof (shl_align_mag prec emax mx ex ez) as Ma.
  pose proof (shl_align_exponent mx ex ez) as Ea.
  pose proof (shl_align_mag prec emax my ey ez) as Mb.
  pose proof (shl_align_exponent my ey ez) as Eb.
  set (a := fst (shl_align mx ex ez)) in *.
  set (b := fst (shl_align my ey ez)) in *.
  assert (E : cond_Zopp s (Zpos a) + cond_Zopp s (Zpos b)
              = cond_Zopp s (Zpos (a + b))) by (destruct s; reflexivity).
  rewrite E.
  assert (R : binary_normalize prec emax (cond_Zopp s (Zpos (a + b))) ez false
              = binary_round prec emax s (a + b)%positive ez)
    by (destruct s; reflexivity).
  rewrite R.
  assert (Hsum : Zpos (digits2_pos (a + b)) <= hi - ez + 1).
  { apply digits2_pos_add; lia. }
  assert (Hge : Zpos (digits2_pos a) <= Zpos (digits2_pos (a + b))).
  { rewrite !digits2_pos_log2. pose proof (Z.log2_le_mono (Zpos a) (Zpos (a + b))). lia. }
  destruct (binary_round_within s (a + b)%positive ez) as (m & e & H & He & Hm);
    [unfold ez in *; lia | lia |].
  exists m, e. split; [exact H|]. unfold ez in *. lia.
Qed.
(** The quotient of two finite numbers is finite when the difference of
    their magnitudes stays clear of underflow and overflow. *)
Lemma SFdiv_within sx mx ex sy my ey :
  emin + prec <= (Zpos (digits2_pos mx) + ex) - (Zpos (digits2_pos my) + ey) ->
  (Zpos (digits2_pos mx) + ex) - (Zpos (digits2_pos my) + ey) + 2 <= emax ->
  SF_within prec emax (xorb sx sy)
    ((Zpos (digits2_pos mx) + ex) - (Zpos (digits2_pos my) + ey))
    ((Zpos (digits2_pos mx) + ex) - (Zpos (digits2_pos my) + ey) + 2)
    (SFdiv prec emax (S754_finite sx mx ex) (S754_finite sy my ey)).
Proof using prec_gt_0 emax_ge_2.
  intros Hlo Hhi. unfold SFdiv, SFdiv_core_binary.
  set (d1 := Zdigits2 (Zpos mx)). set (d2 := Zdigits2 (Zpos my)).
  assert (Hd1 : d1 = Zpos (digits2_pos mx)) by reflexivity.
  assert (Hd2 : d2 = Zpos (digits2_pos my)) by reflexivity.
  rewrite <- Hd1, <- Hd2 in *.
  assert (Hf : fexp (d1 + ex - (d2 + ey)) = d1 + ex - (d2 + ey) - prec).
  { unfold SpecFloat.fexp. lia. }
  rewrite Hf.
  set (e' := Z.min (d1 + ex - (d2 + ey) - prec) (ex - ey)).
  set (s := ex - ey - e').
  assert (Hs : prec + d2 - d1 <= s /\ 0 <= s) by (unfold s, e'; lia).
  set (m' := match s with Zpos _ => Z.shiftl (Zpos mx) s | 0 => Zpos mx | Zneg _ => 0 end).
  assert (Hm' : m' = Zpos mx * 2 ^ s).
  { unfold m'. destruct s; try lia. rewrite Z.shiftl_mul_pow2 by lia. reflexivity. }
  pose proof (Z_div_mod m' (Zpos my) eq_refl) as Hdm.
  destruct (Z.div_eucl m' (Zpos my)) as [q r].
  destruct Hdm as [Hq Hr].
  assert (D1 : 0 < d1) by lia. assert (D2 : 0 < d2) by lia.
  assert (B1 : 2 ^ (d1 - 1) <= Zpos mx < 2 ^ d1).
  { rewrite Hd1, digits2_pos_log2.
    replace (Z.log2 (Zpos mx) + 1 - 1) with (Z.log2 (Zpos mx)) by lia.
    replace (Z.log2 (Zpos mx) + 1) with (Z.succ (Z.log2 (Zpos mx))) by lia.
    apply Z.log2_spec. lia. }
  assert (B2 : 2 ^ (d2 - 1) <= Zpos my < 2 ^ d2).
  { rewrite Hd2, digits2_pos_log2.
    replace (Z.log2 (Zpos my) + 1 - 1) with (Z.log2 (Zpos my)) by lia.
    replace (Z.log2 (Zpos my) + 1) with (Z.succ (Z.log2 (Zpos my))) by lia.
    apply Z.log2_spec. lia. }
  set (k := d1 - 1 + s - d2).
  assert (Hk : 0 <= k) by (unfold k; lia).
  assert (P2s : 0 < 2 ^ s) by (apply Z.pow_pos_nonneg; lia).
  assert (P2k : 0 < 2 ^ k) by (apply Z.pow_pos_nonneg; lia).
  assert (P2d : 0 < 2 ^ (d2 - 1)) by (apply Z.pow_pos_nonneg; lia).
  assert (Bq : 2 ^ k <= q).
  { assert (P : 2 ^ (d1 - 1) * 2 ^ s = 2 ^ k * 2 ^ d2).
    { rewrite <- !Z.pow_add_r by lia. f_equal. unfold k. lia. }
    assert (2 ^ k * 2 ^ d2 <= m') by (rewrite Hm', <- P; nia).
    nia. }
  assert (Uq : q < 2 ^ (k + 2)).
  { assert (P : 2 ^ d1 * 2 ^ s = 2 ^ (k + 2) * 2 ^ (d2 - 1)).
    { rewrite <- !Z.pow_add_r by lia. f_equal. unfold k. lia. }
    assert (m' < 2 ^ (k + 2) * 2 ^ (d2 - 1)) by (rewrite Hm', <- P; nia).
    assert (0 < 2 ^ (k + 2)) by (apply Z.pow_pos_nonneg; lia).
    nia. }
  assert (Qpos : 0 < q) by lia.
  assert (Dq : k + 1 <= Zdigits2 q <= k + 2).
  { rewrite Zdigits2_log2 by easy. split.
    - apply Z.log2_le_pow2 in Bq; lia.
    - apply Z.log2_lt_pow2 in Uq; lia. }
  destruct (binary_round_aux_within (xorb sx sy) q e' (new_location (Zpos my) r))
    as (m2 & e2 & H & ? & ?);
    [easy | unfold k, s in *; lia | unfold k, s in *; lia | unfold e'; lia |].
  exists m2, e2. split; [exact H|]. unfold k, s in *. lia.
Qed.
End Finite.

(** ** float64: finite seconds of a duration *)

Abbreviation within64 := (SF_within F64.prec F64.emax).

Lemma F64_emax_ge_2 : 2 <= F64.emax.
Proof. unfold F64.emax. lia. Qed.

Lemma SF_within_weaken prec emax s lo hi lo' hi' x :
  lo' <= lo -> hi <= hi' ->
  SF_within prec emax s lo hi x -> SF_within prec emax s lo' hi' x.
Proof.
  intros Hlo Hhi (m & e & -> & He & Hm). exists m, e. split; [reflexivity|]. lia.
Qed.

Lemma Zdigits2_bound n k : 0 < n -> 0 <= k -> n < 2 ^ k -> Zdigits2 n <= k.
Proof.
  intros Hn Hk Hlt. rewrite Zdigits2_log2 by exact Hn.
  apply Z.log2_lt_pow2 in Hlt; lia.
Qed.

(** Converting a positive integer below 2^k (k at most 1022) gives a
    positive finite float of magnitude between 1 and k + 1. *)
Lemma of_Z_within n k :
  0 < n -> 0 <= k <= 1022 -> n < 2 ^ k -> within64 false 1 (k + 1) (F64.of_Z n).
Proof.
  intros Hn Hk Hlt. pose proof (Zdigits2_bound n k Hn (proj1 Hk) Hlt) as Hd.
  destruct n as [| p | p]; try lia. simpl Zdigits2 in Hd.
  unfold F64.of_Z, binary_normalize.
  eapply SF_within_weaken;
    [| | apply (binary_round_within F64.prec F64.emax F64_prec_gt_0 F64_emax_ge_2)].
  - lia.
  - lia.
  - rewrite F64_emin. lia.
  - unfold F64.emax. lia.
Qed.

Lemma div_1e9_within n :
  0 < n -> n < 2 ^ 30 ->
  within64 false (-29) 3 (F64.div (F64.of_Z n) (F64.of_Z 1000000000)).
Proof.
  intros Hn Hlt. rewrite of_Z_1e9. unfold F64.div.
  destruct (of_Z_within n 30 Hn ltac:(lia) Hlt) as (m & e & -> & He & Hm).
  pose proof (SFdiv_within F64.prec F64.emax F64_prec_gt_0 F64_emax_ge_2
                false m e false 8388608000000000 (-23)) as H.
  change (Zpos (digits2_pos 8388608000000000)) with 53 in H.
  rewrite F64_emin in H.
  eapply SF_within_weaken; [| | apply H]; unfold F64.prec, F64.emax; lia.
Qed.

Lemma SFadd_zero_l_within x lo hi :
  within64 false lo hi x -> F64.add (S754_zero false) x = x.
Proof. intros (m & e & -> & _). reflexivity. Qed.

Lemma SFadd_zero_r_within x lo hi :
  within64 false lo hi x -> F64.add x (S754_zero false) = x.
Proof. intros (m & e & -> & _). reflexivity. Qed.

(** The seconds of a positive duration are a positive finite float64:
    neither zero, nor an infinity, nor NaN. *)
Lemma Seconds_within d :
  0 < d <= time.maxDuration -> within64 false (-29) 37 (time.Seconds d).
Proof.
  intros [Hd Hmax]. unfold time.maxDuration in Hmax. unfold time.Seconds.
  change time.Second with 1000000000.
  set (sec := Z.quot d 1000000000). set (nsec := Z.rem d 1000000000).
  assert (Hqr : d = 1000000000 * sec + nsec /\ 0 <= sec /\ 0 <= nsec < 1000000000).
  { unfold sec, nsec. Z.quot_rem_to_equations. lia. }
  destruct Hqr as (Hrel & Hsec & Hnsec).
  assert (Hs34 : sec < 2 ^ 34) by lia.
  assert (Hn30 : nsec < 2 ^ 30) by lia.
  destruct (Z.eq_dec sec 0) as [Es | Es]; destruct (Z.eq_dec nsec 0) as [En | En].
  - lia.
  - rewrite Es. change (F64.of_Z 0) with (S754_zero false).
    assert (Hy := div_1e9_within nsec ltac:(lia) Hn30).
    rewrite (SFadd_zero_l_within _ _ _ Hy).
    eapply SF_within_weaken; [| | exact Hy]; lia.
  - rewrite En. change (F64.div (F64.of_Z 0) (F64.of_Z 1000000000))
      with (S754_zero false).
    assert (Hx := of_Z_within sec 34 ltac:(lia) ltac:(lia) Hs34).
    rewrite (SFadd_zero_r_within _ _ _ Hx).
    eapply SF_within_weaken; [| | exact Hx]; lia.
  - assert (Hx := of_Z_within sec 34 ltac:(lia) ltac:(lia) Hs34).
    assert (Hy := div_1e9_within nsec ltac:(lia) Hn30).
    apply (SFadd_within F64.prec F64.emax F64_prec_gt_0 F64_emax_ge_2
             false (-29) 35).
    + eapply SF_within_weaken; [| | exact Hx]; lia.
    + eapply SF_within_weaken; [| | exact Hy]; lia.
    + unfold F64.emax. lia.
Qed.

Lemma within_is_finite s lo hi x : within64 s lo hi x -> is_finite64 x = true.
Proof. intros (m & e & -> & _). reflexivity. Qed.

Lemma within_positive lo hi x :
  within64 false lo hi x -> F64.ltb F64.zero x = true.
Proof. intros (m & e & -> & _). reflexivity. Qed.

Lemma saturate_range d :
  time.minDuration <= time.saturate d <= time.maxDuration.
Proof.
  unfold time.saturate.
  destruct (Z.ltb_spec d time.minDuration);
    [unfold time.minDuration, time.maxDuration; lia|].
  destruct (Z.ltb_spec time.maxDuration d);
    [unfold time.minDuration, time.maxDuration; lia | lia].
Qed.

Lemma saturate_positive d : (0 <? time.saturate d) = (0 <? d).
Proof.
  unfold time.saturate.
  destruct (Z.ltb_spec d time.minDuration) as [H | H].
  - unfold time.minDuration in *. symmetry. apply Z.ltb_ge. lia.
  - destruct (Z.ltb_spec time.maxDuration d) as [H' | H']; [|reflexivity].
    unfold time.maxDuration in *. symmetry. apply Z.ltb_lt. lia.
Qed.

Lemma since_opp t u : time.since t u = - time.since u t.
Proof.
  unfold time.since. destruct (time.mono t), (time.mono u); lia.
Qed.

(** ** float64: integers below 2^53 convert exactly *)

Lemma binary_round_aux_canonical prec emax s m e :
  SpecFloat.fexp prec emax (Zpos (digits2_pos m) + e) = e ->
  e <= emax - prec ->
  binary_round_aux prec emax s (Zpos m) e loc_Exact = S754_finite s m e.
Proof.
  intros Hc He. unfold binary_round_aux, shr_fexp. simpl Zdigits2.
  rewrite Hc, Z.sub_diag. cbn [shr shr_record_of_loc shr_m loc_of_shr_record
                               round_nearest_even Zdigits2].
  rewrite Hc, Z.sub_diag. cbn [shr shr_record_of_loc shr_m].
  replace (e <=? emax - prec) with true by (symmetry; apply Z.leb_le; exact He).
  reflexivity.
Qed.

Lemma pos_iter_xO_value p n : Zpos (Pos.iter xO p n) = Zpos p * 2 ^ Zpos n.
Proof.
  induction n as [| n IH] using Pos.peano_ind.
  - simpl. lia.
  - rewrite Pos.iter_succ, Pos2Z.inj_succ, Z.pow_succ_r by lia.
    rewrite Pos2Z.inj_xO, IH. lia.
Qed.

(** An integer below 2^53 converts exactly: the mantissa is the integer
    shifted left by the opposite of the exponent. *)
Lemma of_Z_exact n :
  0 < n < 2 ^ 53 ->
  exists m e, F64.of_Z n = S754_finite false m e
    /\ e <= 0 /\ Zpos m = n * 2 ^ (- e).
Proof.
  intros [Hn Hlt]. pose proof (Zdigits2_bound n 53 Hn ltac:(lia) Hlt) as Hd.
  destruct n as [| p | p]; try lia. simpl Zdigits2 in Hd.
  unfold F64.of_Z, binary_normalize, binary_round.
  assert (Hf : SpecFloat.fexp F64.prec F64.emax (Zpos (digits2_pos p) + 0)
               = Zpos (digits2_pos p) - 53).
  { unfold SpecFloat.fexp, SpecFloat.emin, F64.prec, F64.emax. lia. }
  rewrite Hf. unfold shl_align.
  destruct (Zpos (digits2_pos p) - 53 - 0) as [| sh | sh] eqn:E; try lia.
  - exists p, 0. split; [|simpl; lia].
    apply binary_round_aux_canonical; [|unfold F64.prec, F64.emax; lia].
    rewrite Hf. lia.
  - exists (Pos.iter xO p sh), (Zpos (digits2_pos p) - 53).
    split; [|split; [lia|]].
    + apply binary_round_aux_canonical; [|unfold F64.prec, F64.emax; lia].
      rewrite (digits2_pos_iter_xO F64.prec F64.emax).
      unfold SpecFloat.fexp, SpecFloat.emin, F64.prec, F64.emax. lia.
    + rewrite pos_iter_xO_value. f_equal. f_equal. lia.
Qed.

Lemma to_Q_integer m e n :
  e <= 0 -> Zpos m = n * 2 ^ (- e) ->
  exists q, F64.to_Q (S754_finite false m e) = Some q /\ (q == inject_Z n)%Q.
Proof.
  intros He Hm. eexists. split; [reflexivity|].
  rewrite Qred_correct. cbn [cond_Zopp].
  change (Zpos m # 1)%Q with (inject_Z (Zpos m)). rewrite Hm.
  rewrite inject_Z_mult.
  replace e with (- (- e)) at 2 by lia.
  rewrite Qpower_opp.
  change (2 # 1)%Q with (inject_Z 2).
  rewrite <- Zpower_Qpower by lia.
  assert (P : 0 < 2 ^ (- e)) by (apply Z.pow_pos_nonneg; lia).
  assert (NZ : ~ (inject_Z (2 ^ (- e)) == 0)%Q).
  { unfold Qeq. simpl. lia. }
  field. exact NZ.
Qed.

(** ** [getTransitionTimeSeconds]: further properties *)

Lemma Seconds_zero : time.Seconds 0 = F64.zero.
Proof. reflexivity. Qed.

(** X1.  Whatever the inputs, nil or not, the number returned is a finite
    float64: never NaN, never an infinity. *)
Theorem transition_time_finite (oldTime newTime : option metav1.Time) :
  is_finite64 (fst (getTransitionTimeSeconds oldTime newTime)) = true.
Proof.
  destruct oldTime as [a |], newTime as [b |]; try reflexivity.
  rewrite transition_time_unfold. cbv zeta. cbn [fst].
  pose proof (saturate_range (time.since (metav1.Time_ b) (metav1.Time_ a))) as R.
  fold (time.Sub (metav1.Time_ b) (metav1.Time_ a)) in R.
  destruct (Z.ltb_spec (time.Sub (metav1.Time_ b) (metav1.Time_ a)) 0) as [H | H];
    [reflexivity|].
  destruct (Z.eq_dec (time.Sub (metav1.Time_ b) (metav1.Time_ a)) 0) as [-> | Hnz];
    [reflexivity|].
  apply (within_is_finite false (-29) 37), Seconds_within. lia.
Qed.

(** X2.  For two present, well-formed timestamps the number returned is
    strictly positive exactly when [oldTime] is before [newTime]: a
    difference as small as one nanosecond is not rounded down to zero. *)
Theorem transition_time_positive_iff_before (oldTime newTime : metav1.Time) :
  time.valid (metav1.Time_ oldTime) ->
  time.valid (metav1.Time_ newTime) ->
  F64.ltb F64.zero (fst (getTransitionTimeSeconds (Some oldTime) (Some newTime)))
  = time.Before (metav1.Time_ oldTime) (metav1.Time_ newTime).
Proof.
  intros Hold Hnew. rewrite transition_time_unfold. cbv zeta. cbn [fst].
  pose proof (saturate_range (time.since (metav1.Time_ newTime)
                                (metav1.Time_ oldTime))) as R.
  pose proof (saturate_positive (time.since (metav1.Time_ newTime)
                                   (metav1.Time_ oldTime))) as P.
  pose proof (saturate_sign (time.since (metav1.Time_ newTime)
                               (metav1.Time_ oldTime))) as N.
  fold (time.Sub (metav1.Time_ newTime) (metav1.Time_ oldTime)) in R, P, N.
  rewrite (since_opp (metav1.Time_ newTime) (metav1.Time_ oldTime)) in P, N.
  destruct (time.Before (metav1.Time_ oldTime) (metav1.Time_ newTime)) eqn:B.
  - pose proof (since_before _ _ Hold Hnew B) as Hs.
    replace (_ <? 0) with false by lia.
    apply (within_positive (-29) 37), Seconds_within. lia.
  - pose proof (since_not_before _ _ Hold Hnew B) as Hs.
    destruct (Z.ltb_spec (time.Sub (metav1.Time_ newTime) (metav1.Time_ oldTime)) 0)
      as [H | H]; [reflexivity|].
    replace (time.Sub (metav1.Time_ newTime) (metav1.Time_ oldTime)) with 0 by lia.
    reflexivity.
Qed.

Lemma transition_time_positive_iff_before_witness :
  F64.ltb F64.zero
    (fst (getTransitionTimeSeconds (Some new_year_2024)
            (Some new_year_2024_plus_one_ns)))
  = true.
Proof.
  apply (transition_time_positive_iff_before new_year_2024
           new_year_2024_plus_one_ns).
  - unfold time.valid, time.int64_range; simpl; lia.
  - unfold time.valid, time.int64_range; simpl; lia.
Defined.

(** X3.  Of the two argument orders, one always gives 0.0: called with
    the timestamps swapped, the function does not return the negated
    difference. *)
Theorem transition_time_swapped (t u : metav1.Time) :
  getTransitionTimeSeconds (Some t) (Some u) = (F64.zero, None)
  \/ getTransitionTimeSeconds (Some u) (Some t) = (F64.zero, None).
Proof.
  rewrite !transition_time_unfold. cbv zeta. unfold time.Sub.
  rewrite !saturate_sign.
  pose proof (since_opp (metav1.Time_ u) (metav1.Time_ t)) as Ho.
  destruct (Z.lt_trichotomy (time.since (metav1.Time_ u) (metav1.Time_ t)) 0)
    as [H | [H | H]].
  - left. replace (_ <? 0) with true by lia. reflexivity.
  - left. rewrite H. reflexivity.
  - right. replace (time.since (metav1.Time_ t) (metav1.Time_ u) <? 0) with true
      by lia. reflexivity.
Qed.

(** X4.  When [newTime] is a whole number [k] of seconds after [oldTime]
    (and the difference fits a [Duration]), the function returns
    [float64(k)], which denotes [k] exactly. *)
Theorem transition_time_whole_seconds (oldTime newTime : metav1.Time) (k : Z) :
  time.since (metav1.Time_ newTime) (metav1.Time_ oldTime) = k * time.Second ->
  0 <= k ->
  k * time.Second <= time.maxDuration ->
  getTransitionTimeSeconds (Some oldTime) (Some newTime) = (F64.of_Z k, None)
  /\ exists q, F64.to_Q (F64.of_Z k) = Some q /\ (q == inject_Z k)%Q.
Proof.
  intros Hs Hk Hfit. unfold time.Second, time.Millisecond, time.Microsecond,
    time.Nanosecond, time.maxDuration in *.
  destruct (Z.eq_dec k 0) as [-> | Hnz].
  - split.
    + rewrite transition_time_unfold. cbv zeta. unfold time.Sub. rewrite Hs.
      reflexivity.
    + exists (0 # 1)%Q. split; reflexivity.
  - destruct (of_Z_exact k ltac:(lia)) as (m & e & E & He & Hm).
    split.
    + rewrite transition_time_unfold. cbv zeta. unfold time.Sub. rewrite Hs.
      rewrite saturate_id by (unfold time.minDuration, time.maxDuration; lia).
      replace (_ <? 0) with false by lia.
      unfold time.Seconds. change time.Second with 1000000000.
      replace (k * (1000 * (1000 * (1000 * 1)))) with (k * 1000000000) by lia.
      rewrite Z.quot_mul, Z.rem_mul by lia.
      change (F64.div (F64.of_Z 0) (F64.of_Z 1000000000)) with (S754_zero false).
      rewrite E. reflexivity.
    + rewrite E. apply to_Q_integer; assumption.
Qed.

Lemma transition_time_whole_seconds_witness :
  getTransitionTimeSeconds (Some new_year_2024) (Some new_year_2024_plus_one_hour)
  = (F64.of_Z 3600, None)
  /\ exists q, F64.to_Q (F64.of_Z 3600) = Some q /\ (q == inject_Z 3600)%Q.
Proof.
  apply (transition_time_whole_seconds new_year_2024
           new_year_2024_plus_one_hour 3600).
  - reflexivity.
  - lia.
  - vm_compute. discriminate.
Defined.

(** X5.  When the exact difference is at least [maxDuration], the function
    returns the seconds of [maxDuration], about 9223372036.85: this is
    the largest number it can return for timestamps that far apart. *)
Theorem transition_time_cap (oldTime newTime : metav1.Time) :
  time.maxDuration
  <= time.since (metav1.Time_ newTime) (metav1.Time_ oldTime) ->
  getTransitionTimeSeconds (Some oldTime) (Some newTime)
  = (time.Seconds time.maxDuration, None)
  /\ F64.to_Q (time.Seconds time.maxDuration)
     = Some (4835703278458517 # 524288)%Q.
Proof.
  intros H. split; [|vm_compute; reflexivity].
  rewrite transition_time_unfold. cbv zeta. unfold time.Sub.
  assert (E : time.saturate (time.since (metav1.Time_ newTime)
                               (metav1.Time_ oldTime)) = time.maxDuration).
  { unfold time.saturate, time.minDuration, time.maxDuration in *.
    destruct (Z.ltb_spec (time.since (metav1.Time_ newTime) (metav1.Time_ oldTime))
                (- 2 ^ 63)); [lia|].
    destruct (Z.ltb_spec (2 ^ 63 - 1)
                (time.since (metav1.Time_ newTime) (metav1.Time_ oldTime))); lia. }
  rewrite E. reflexivity.
Qed.

Lemma transition_time_cap_witness :
  getTransitionTimeSeconds (Some zero_Time) (Some new_year_2024)
  = (time.Seconds time.maxDuration, None)
  /\ F64.to_Q (time.Seconds time.maxDuration)
     = Some (4835703278458517 # 524288)%Q.
Proof.
  apply (transition_time_cap zero_Time new_year_2024).
  vm_compute. discriminate.
Defined.

(** ** [PhaseTransitionTimeBuckets]: the frame *)

(** X6.  A call only allocates: every backing array that was in the heap is
    still there with the same contents, and the heap has grown by exactly
    one array. *)
Theorem buckets_only_allocate (h : gmap loc (list float64)) :
  h ⊆ snd (PhaseTransitionTimeBuckets h)
  /\ size (snd (PhaseTransitionTimeBuckets h)) = S (size h)
  /\ dom (snd (PhaseTransitionTimeBuckets h))
     = {[ array (fst (PhaseTransitionTimeBuckets h)) ]} ∪ dom h.
Proof.
  unfold PhaseTransitionTimeBuckets. cbn [fst snd array].
  assert (Hf : h !! fresh (dom h) = None)
    by apply not_elem_of_dom, is_fresh.
  split; [|split].
  - apply insert_subseteq, Hf.
  - apply map_size_insert_None, Hf.
  - apply dom_insert_L.
Qed.

(** ** The registration wiring: further properties *)

Section WiringMore.
Context `{Ext : Externals}.

Ltac eval_wiring :=
  lazy [SetupMetrics RegisterLeaderMetrics UpdateVMIMigrationInformer
        mbind M_bind mret M_ret field assign read_vars call
        vars registry trace
        set_vmInformer set_vmiInformer set_persistentVolumeClaimInformer
        set_vmiMigrationInformer set_kvPodInformer set_clusterConfig
        set_vmApplier set_instancetypeStore set_clusterInstancetypeStore
        set_preferenceStore set_clusterPreferenceStore set_controllerRevision
        vmInformer vmiInformer persistentVolumeClaimInformer
        vmiMigrationInformer kvPodInformer clusterConfig vmApplier
        instancetypeStore clusterInstancetypeStore preferenceStore
        clusterPreferenceStore controllerRevision
        Vm Vmi PersistentVolumeClaim VmiMigration KvPod
        Instancetype ClusterInstancetype Preference ClusterPreference
        ControllerRevision].

(** X7.  A nil pointer makes [SetupMetrics] panic, and no call reaches
    the registry.  With [informers] nil it panics at once, with no variable
    assigned.  With [informers] present and [stores] nil it panics after
    the five informers and the cluster configuration are stored: the five
    store variables and the applier keep their previous values. *)
Theorem SetupMetrics_nil_pointer_panics (i : Informers)
  (stores : option Stores) (cfg : ClusterConfig) (cli : KubevirtClient)
  (w : World) :
  SetupMetrics None stores cfg cli w = (Panic _, w)
  /\ SetupMetrics (Some i) None cfg cli w
     = (Panic _,
        mkWorld
          (mkPkgVars (Vm i) (Vmi i) (PersistentVolumeClaim i) (VmiMigration i)
             (KvPod i) cfg (vmApplier (vars w))
             (instancetypeStore (vars w)) (clusterInstancetypeStore (vars w))
             (preferenceStore (vars w)) (clusterPreferenceStore (vars w))
             (controllerRevision (vars w)))
          (registry w) (trace w)).
Proof.
  split; [reflexivity|].
  destruct w as [v r t], v, i. eval_wiring. reflexivity.
Qed.

Lemma first_error_wins_outcome (steps : list (Call Metric Collector))
  (r : Registry) :
  match first_error_wins steps r with
  | (done, _, None) => done = steps
  | (done, r', Some e) =>
      exists pre c rest rmid,
        steps = pre ++ c :: rest /\ done = pre ++ [c]
        /\ perform c rmid = (r', Some e)
  end.
Proof.
  revert r. induction steps as [| c steps IH]; intros r; [reflexivity|].
  cbn [first_error_wins].
  destruct (perform c r) as [r1 [e |]] eqn:P.
  - exists [], c, steps, r. auto.
  - specialize (IH r1).
    destruct (first_error_wins steps r1) as [[done r2] [e |]].
    + destruct IH as (pre & c' & rest & rmid & -> & -> & Hp).
      exists (c :: pre), c', rest, rmid. auto.
    + rewrite IH. reflexivity.
Qed.

(** X8.  With both pointers present: when [SetupMetrics] returns nil, all
    four registration calls were made, in program order; when it returns
    an error, the calls made are an initial part of the four and the
    error is the one the registry returned for the last call made. *)
Theorem SetupMetrics_outcome (i : Informers) (s : Stores)
  (cfg : ClusterConfig) (cli : KubevirtClient) (w : World) :
  exists events,
    trace (snd (SetupMetrics (Some i) (Some s) cfg cli w)) = trace w ++ events
    /\ match fst (SetupMetrics (Some i) (Some s) cfg cli w) with
       | Ok _ None => map ev_call events = registration_steps
       | Ok _ (Some e) =>
           exists pre c rest rmid,
             registration_steps = pre ++ c :: rest
             /\ map ev_call events = pre ++ [c]
             /\ perform c rmid
                = (registry (snd (SetupMetrics (Some i) (Some s) cfg cli w)),
                   Some e)
       | Panic _ => False
       end.
Proof.
  rewrite SetupMetrics_run.
  pose proof (first_error_wins_outcome registration_steps (registry w)) as H.
  destruct (first_error_wins registration_steps (registry w)) as [[done r] err].
  exists (map (fun c => mkEvent c (stored_vars i s cfg cli)) done).
  cbn [fst snd trace registry]. split; [reflexivity|].
  assert (M : map ev_call (map (fun c => mkEvent c (stored_vars i s cfg cli)) done)
              = done).
  { rewrite map_map. cbn [ev_call]. apply map_id. }
  rewrite M. destruct err as [e |]; exact H.
Qed.

(** X9.  [SetupMetrics] overwrites every package-level variable: its
    result, the registry and the trace it leaves do not depend on what
    the variables held before.  In particular an earlier
    [UpdateVMIMigrationInformer] is lost. *)
Theorem SetupMetrics_forgets_previous_vars (i : Informers) (s : Stores)
  (cfg : ClusterConfig) (cli : KubevirtClient) (v v' : PkgVars)
  (r : Registry) (t : list Event) (informer : SharedIndexInformer) :
  SetupMetrics (Some i) (Some s) cfg cli (mkWorld v r t)
  = SetupMetrics (Some i) (Some s) cfg cli (mkWorld v' r t)
  /\ vmiMigrationInformer
       (vars (snd (SetupMetrics (Some i) (Some s) cfg cli
                     (snd (UpdateVMIMigrationInformer informer (mkWorld v r t))))))
     = VmiMigration i.
Proof.
  split.
  - rewrite !SetupMetrics_run. reflexivity.
  - rewrite SetupMetrics_run.
    destruct (first_error_wins _ _) as [[done r'] err]. reflexivity.
Qed.

(** X10.  [UpdateVMIMigrationInformer] after [SetupMetrics] replaces the
    migration informer and nothing else: the other variables are the ones
    [SetupMetrics] stored, and the applier built from the stores is
    kept. *)
Theorem UpdateVMIMigrationInformer_after_SetupMetrics (i : Informers)
  (s : Stores) (cfg : ClusterConfig) (cli : KubevirtClient) (w : World)
  (informer : SharedIndexInformer) :
  vars (snd (UpdateVMIMigrationInformer informer
               (snd (SetupMetrics (Some i) (Some s) cfg cli w))))
  = mkPkgVars (Vm i) (Vmi i) (PersistentVolumeClaim i) informer (KvPod i) cfg
      (apply_NewVMApplier
         (find_NewSpecFinder (Instancetype s) (ClusterInstancetype s)
            (ControllerRevision s) cli)
         (preferenceFind_NewSpecFinder (Preference s) (ClusterPreference s)
            (ControllerRevision s) cli))
      (Instancetype s) (ClusterInstancetype s) (Preference s)
      (ClusterPreference s) (ControllerRevision s).
Proof.
  rewrite SetupMetrics_run.
  destruct (first_error_wins _ _) as [[done r'] err]. reflexivity.
Qed.

(** X11.  [RegisterLeaderMetrics] makes exactly one call,
    [operatormetrics.RegisterMetrics] on the leader metrics alone, returns
    what the registry answered, and leaves the package-level variables as
    they were. *)
Theorem RegisterLeaderMetrics_single_call (w : World) :
  fst (RegisterLeaderMetrics w)
  = Ok _ (snd (perform (operatormetrics_RegisterMetrics [leaderMetrics])
                 (registry w)))
  /\ registry (snd (RegisterLeaderMetrics w))
     = fst (perform (operatormetrics_RegisterMetrics [leaderMetrics])
              (registry w))
  /\ trace (snd (RegisterLeaderMetrics w))
     = trace w
       ++ [mkEvent (operatormetrics_RegisterMetrics [leaderMetrics]) (vars w)]
  /\ vars (snd (RegisterLeaderMetrics w)) = vars w.
Proof.
  destruct w as [v r t]. eval_wiring.
  destruct (perform (operatormetrics_RegisterMetrics [leaderMetrics]) r)
    as [r' [e |]]; repeat split.
Qed.

End WiringMore.
